(** * Express instrumentation: the layer patch of [express.ts]

    A shallow embedding of [ExpressInstrumentation._applyPatch]
    (plugins/node/opentelemetry-instrumentation-express/src/express.ts)
    and of the function it installs on a layer's [handle] slot.

    JavaScript effects are written with explicit state passing over a
    [World]: the request, the response's listeners, the tracer, the cells
    of the closure variables and the clock. *)

From stdpp Require Import base option list strings gmap.

Open Scope string_scope.
Open Scope list_scope.

(** ** Values *)

(** Values handed to a continuation; [arguments[0] instanceof Error] only
    asks whether a value is an [Error]. *)
Inductive JsVal :=
| VUndefined
| VError (message : string)
| VString (s : string)
| VNumber (n : nat).

(** How a call finishes. *)
Inductive Completion :=
| Return (v : JsVal)
| Throw (v : JsVal).

Definition instanceof_Error (v : JsVal) : bool :=
  match v with VError _ => true | _ => false end.

(** [hrTime()] readings. *)
Definition HrTime := nat.

(** Span handles returned by the tracer. *)
Definition Span := nat.

(** [Attributes]: an object from attribute names to values; a key may be
    present with the value [undefined] ([None]). *)
Abbreviation Attributes := (gmap string (option string)).

(** [attributes[key]]: [undefined] when the key is absent. *)
Definition attr_get (a : Attributes) (key : string) : option string :=
  mjoin (a !! key).

(** [Object.assign(target, source)]: the keys of [source] win. *)
Definition Object_assign (target source : Attributes) : Attributes :=
  source ∪ target.

(** What [getLayerMetadata] returns. *)
Record LayerMetadata := {
  md_attributes : Attributes;
  md_name : string
}.

(** ** The imports of express.ts that are not part of it

    [./types] ([AttributeNames], [ExpressLayerType],
    [ExpressInstrumentationConfig]) and [./utils] ([getLayerMetadata],
    [isLayerIgnored]) are taken as parameters.  The classifier reads a
    layer through its [name]. *)
Class Imports := {
  ExpressInstrumentationConfig : Type;
  COMPONENT : string;
  HTTP_ROUTE : string;
  EXPRESS_TYPE : string;
  MIDDLEWARE : string;
  REQUEST_HANDLER : string;
  getLayerMetadata : string -> option string -> LayerMetadata;
  isLayerIgnored :
    string -> option string -> ExpressInstrumentationConfig -> bool
}.

(** [ExpressInstrumentation.component] *)
Definition component : string := "express".

(** ** Arrays *)

(** [Array.prototype.join]: [undefined] elements are rendered as the empty
    string, the separator goes between elements. *)
Definition element_text (seg : option string) : string :=
  match seg with Some s => s | None => EmptyString end.

Fixpoint join (sep : string) (l : list (option string)) : string :=
  match l with
  | [] => EmptyString
  | [x] => element_text x
  | x :: rest => element_text x +:+ sep +:+ join sep rest
  end.

(** [Array.prototype.findIndex]; [None] stands for [-1]. *)
Definition findIndex {A} (p : A -> bool) (l : list A) : option nat :=
  fst <$> list_find (fun x => p x = true) l.

(** [Array.prototype.pop] *)
Definition pop {A} (l : list A) : list A := removelast l.

(** Lines 204-206: [store.filter(path => path !== '/').join('')]. *)
Definition reconstructed_route (store : list (option string)) : string :=
  join EmptyString (filter (fun path => path ≠ Some "/") store).

(** The route as section 4.2 step 2 words it: go through the segments in
    order and append each one that is not ["/"]. *)
Fixpoint concat_non_root (store : list (option string)) : string :=
  match store with
  | [] => EmptyString
  | seg :: rest =>
      if decide (seg = Some "/") then concat_non_root rest
      else element_text seg +:+ concat_non_root rest
  end.

(** ** The world *)

(** What the three closures created by one instrumented invocation share:
    the [span], the [startTime] and the variable [spanHasEnded], which
    lives in a cell of the world.  [onResponseFinish] is identified by
    this record. *)
Record Closure := {
  cl_span : Span;
  cl_startTime : HrTime;
  cl_spanHasEnded : nat
}.

Global Instance Closure_eq_dec : EqDecision Closure.
Proof. solve_decision. Defined.

(** One call of [span.end]: its argument and the clock when it was made. *)
Record EndCall := {
  end_arg : option HrTime;
  end_at : HrTime
}.

(** The end time the tracer reports for a call of [span.end]: the argument,
    or the time of the call when there is none. *)
Definition reported_end (e : EndCall) : HrTime :=
  match end_arg e with Some t => t | None => end_at e end.

(** What the tracer holds for a span. *)
Record SpanRecord := {
  sp_name : string;
  sp_attributes : Attributes;
  sp_ends : list EndCall
}.

(** Calls made to the tracer and to [hrTime], in the order made. *)
Inductive Call :=
| CallUpdateName (s : Span) (name : string)
| CallStartSpan (name : string) (attributes : Attributes) (s : Span)
| CallHrTime (t : HrTime)
| CallEnd (s : Span) (endTime : option HrTime).

Definition is_hrTime (c : Call) : bool :=
  match c with CallHrTime _ => true | _ => false end.

Definition is_startSpan (c : Call) : bool :=
  match c with CallStartSpan _ _ _ => true | _ => false end.

Definition is_updateName (c : Call) : bool :=
  match c with CallUpdateName _ _ => true | _ => false end.

(** Among the calls an invocation made, [hrTime] was called before
    [startSpan]. *)
Definition captured_before_creation (made : list Call) : bool :=
  match findIndex is_hrTime made, findIndex is_startSpan made with
  | Some i, Some j => bool_decide (i < j)
  | _, _ => false
  end.

(** Function update. *)
Definition upd {A} (f : nat -> A) (k : nat) (v : A) : nat -> A :=
  fun i => if decide (i = k) then v else f i.

(** ** Effects: a state monad *)

Definition State (W A : Type) : Type := W -> A * W.

Definition ret {W A} (a : A) : State W A := fun w => (a, w).

Definition bind {W A B} (m : State W A) (k : A -> State W B) : State W B :=
  fun w => let (a, w') := m w in k a w'.

Definition gets {W A} (f : W -> A) : State W A := fun w => (f w, w).

Definition modify {W} (f : W -> W) : State W unit := fun w => (tt, f w).

Notation "x <- m ;; k" := (bind m (fun x => k))
  (at level 100, m at next level, k at level 200, right associativity).
Notation "m ;; k" := (bind m (fun _ => k))
  (at level 100, k at level 200, right associativity).

Section Express.
Context `{Imports}.

Record World := {
  (** [req[_LAYERS_STORE_PROPERTY]]; the absent property is the empty
      sequence, as [storeLayerPath] creates it empty on first access *)
  layers_store : list (option string);
  (** [req.method] *)
  req_method : string;
  (** [req.route], [None] when no route has matched *)
  req_route : option string;
  (** [req.res], with its listeners of ['finish'] *)
  req_res : option (list Closure);
  (** [plugin._config] *)
  _config : ExpressInstrumentationConfig;
  (** [plugin.tracer.getCurrentSpan()] *)
  current_span : option Span;
  (** the tracer's spans and the handle of the next one *)
  spans : Span -> SpanRecord;
  next_span : Span;
  (** the cells of closure variables and the next free one *)
  cells : nat -> bool;
  next_cell : nat;
  (** the clock read by [hrTime] *)
  clock : HrTime;
  (** the calls made so far *)
  calls : list Call
}.

Definition set_layers_store (v : list (option string)) (w : World) : World :=
  {| layers_store := v; req_method := req_method w;
     req_route := req_route w; req_res := req_res w; _config := _config w;
     current_span := current_span w; spans := spans w;
     next_span := next_span w; cells := cells w; next_cell := next_cell w;
     clock := clock w; calls := calls w |}.

Definition set_req_res (v : option (list Closure)) (w : World) : World :=
  {| layers_store := layers_store w; req_method := req_method w;
     req_route := req_route w; req_res := v; _config := _config w;
     current_span := current_span w; spans := spans w;
     next_span := next_span w; cells := cells w; next_cell := next_cell w;
     clock := clock w; calls := calls w |}.

Definition set_spans (v : Span -> SpanRecord) (n : Span) (w : World) : World :=
  {| layers_store := layers_store w; req_method := req_method w;
     req_route := req_route w; req_res := req_res w; _config := _config w;
     current_span := current_span w; spans := v;
     next_span := n; cells := cells w; next_cell := next_cell w;
     clock := clock w; calls := calls w |}.

Definition set_cells (v : nat -> bool) (n : nat) (w : World) : World :=
  {| layers_store := layers_store w; req_method := req_method w;
     req_route := req_route w; req_res := req_res w; _config := _config w;
     current_span := current_span w; spans := spans w;
     next_span := next_span w; cells := v; next_cell := n;
     clock := clock w; calls := calls w |}.

Definition log_call (c : Call) (w : World) : World :=
  {| layers_store := layers_store w; req_method := req_method w;
     req_route := req_route w; req_res := req_res w; _config := _config w;
     current_span := current_span w; spans := spans w;
     next_span := next_span w; cells := cells w; next_cell := next_cell w;
     clock := clock w; calls := calls w ++ [c] |}.

(** The effects of the code run in [World]. *)
Definition M : Type -> Type := State World.

(** A continuation, and a handler: the latter also receives functions
    among its arguments. *)
Definition Callback := list JsVal -> M Completion.

Inductive Arg :=
| AObject
| AValue (v : JsVal)
| AFunction (f : Callback).

Definition Handler := list Arg -> M Completion.

(** [typeof arg === 'function'] *)
Definition is_function (a : Arg) : bool :=
  match a with AFunction _ => true | _ => false end.

(** ** The tracer, the clock and the response *)

Definition getCurrentSpan : M (option Span) := gets current_span.

Definition with_name (name : string) (r : SpanRecord) : SpanRecord :=
  {| sp_name := name; sp_attributes := sp_attributes r; sp_ends := sp_ends r |}.

Definition with_end (e : EndCall) (r : SpanRecord) : SpanRecord :=
  {| sp_name := sp_name r; sp_attributes := sp_attributes r;
     sp_ends := sp_ends r ++ [e] |}.

(** [span.updateName(name)] *)
Definition updateName (s : Span) (name : string) : M unit :=
  modify (fun w =>
    log_call (CallUpdateName s name)
      (set_spans (upd (spans w) s (with_name name (spans w s))) (next_span w) w)).

(** [tracer.startSpan(name, {attributes})]: a new span, not ended. *)
Definition startSpan (name : string) (attributes : Attributes) : M Span :=
  fun w =>
    let s := next_span w in
    let r := {| sp_name := name; sp_attributes := attributes; sp_ends := [] |} in
    (s, log_call (CallStartSpan name attributes s)
          (set_spans (upd (spans w) s r) (S s) w)).

(** [span.end(endTime?)] *)
Definition span_end (s : Span) (endTime : option HrTime) : M unit :=
  modify (fun w =>
    let e := {| end_arg := endTime; end_at := clock w |} in
    log_call (CallEnd s endTime)
      (set_spans (upd (spans w) s (with_end e (spans w s))) (next_span w) w)).

(** [hrTime()] *)
Definition hrTime : M HrTime :=
  fun w => (clock w, log_call (CallHrTime (clock w)) w).

(** [let x = v] for a variable that closures capture. *)
Definition new_cell (v : bool) : M nat :=
  fun w => (next_cell w, set_cells (upd (cells w) (next_cell w) v) (S (next_cell w)) w).

Definition read_cell (c : nat) : M bool := gets (fun w => cells w c).

Definition write_cell (c : nat) (v : bool) : M unit :=
  modify (fun w => set_cells (upd (cells w) c v) (next_cell w) w).

(** [EventEmitter.removeListener]: takes out the most recently added
    instance of the listener, if any. *)
Fixpoint remove_first (c : Closure) (l : list Closure) : list Closure :=
  match l with
  | [] => []
  | x :: rest => if decide (x = c) then rest else x :: remove_first c rest
  end.

Definition removeListener (c : Closure) (l : list Closure) : list Closure :=
  reverse (remove_first c (reverse l)).

(** [req.res?.removeListener('finish', onResponseFinish)] *)
Definition res_removeListener (c : Closure) : M unit :=
  modify (fun w => set_req_res (removeListener c <$> req_res w) w).

(** [req.res?.once('finish', onResponseFinish)] *)
Definition res_once (c : Closure) : M unit :=
  modify (fun w => set_req_res ((fun l => l ++ [c]) <$> req_res w) w).

(** [tracer.bind(callback)]: the same function, run in the ambient context. *)
Definition tracer_bind (callback : Callback) : Callback := callback.

(** ** utils.ts *)

(** Modelled from the spec: [storeLayerPath] of utils.ts, which is not among
    the sources.  Section 4.2 step 1 and section 4.3: the sequence is
    created empty on first access and the mount-path fragment is pushed
    onto it on every layer entry, also when the fragment is undefined. *)
Definition storeLayerPath (value : option string) : M unit :=
  modify (fun w => set_layers_store (layers_store w ++ [value]) w).

(** ** The function installed on [layer.handle] (lines 197-279) *)

(** Lines 247-252. *)
Definition onResponseFinish (c : Closure) : M unit :=
  spanHasEnded <- read_cell (cl_spanHasEnded c) ;;
  if negb spanHasEnded then
    write_cell (cl_spanHasEnded c) true ;;
    span_end (cl_span c) (Some (cl_startTime c))
  else ret tt.

(** The response emits ['finish']: the listeners were added with [once], so
    each is taken out and called. *)
Fixpoint call_listeners (l : list Closure) : M unit :=
  match l with
  | [] => ret tt
  | c :: rest => onResponseFinish c ;; call_listeners rest
  end.

Definition emit_finish : M unit :=
  res <- gets req_res ;;
  match res with
  | Some listeners =>
      modify (set_req_res (Some [])) ;; call_listeners listeners
  | None => ret tt
  end.

(** Lines 258-262. *)
Definition end_from_callback (c : Closure) : M unit :=
  spanHasEnded <- read_cell (cl_spanHasEnded c) ;;
  if negb spanHasEnded then
    write_cell (cl_spanHasEnded c) true ;;
    res_removeListener c ;;
    span_end (cl_span c) None
  else ret tt.

(** Lines 263-265. *)
Definition pop_layer_path (arguments : list JsVal) : M unit :=
  route <- gets req_route ;;
  if negb (bool_decide (is_Some route)
           && instanceof_Error (default VUndefined (arguments !! 0)))
  then modify (fun w => set_layers_store (pop (layers_store w)) w)
  else ret tt.

(** Lines 257-268: the function put in place of the continuation.  [args]
    is the copy of the arguments taken at line 254. *)
Definition patched_callback (c : Closure) (args : list Arg) (callbackIdx : nat)
  : Callback :=
  fun arguments =>
    end_from_callback c ;;
    pop_layer_path arguments ;;
    match args !! callbackIdx with
    | Some (AFunction callback) => tracer_bind callback arguments
    | _ => ret (Throw (VError "callback.apply is not a function"))
    end.

(** Lines 222-231. *)
Definition rename_root (type : option string) (route : string) : M unit :=
  if bool_decide (type = Some REQUEST_HANDLER) then
    parent <- getCurrentSpan ;;
    match parent with
    | Some parent =>
        method <- gets req_method ;;
        updateName parent (method +:+ " " +:+ route)
    | None => ret tt
    end
  else ret tt.

(** Lines 232-245. *)
Definition start_layer_span (metadata : LayerMetadata) (attributes : Attributes)
  : M Closure :=
  span <- startSpan (md_name metadata)
            (Object_assign attributes (md_attributes metadata)) ;;
  startTime <- hrTime ;;
  spanHasEnded <- new_cell false ;;
  (if bool_decide (attr_get (md_attributes metadata) EXPRESS_TYPE ≠ Some MIDDLEWARE)
   then span_end span (Some startTime) ;; write_cell spanHasEnded true
   else ret tt) ;;
  ret {| cl_span := span; cl_startTime := startTime;
         cl_spanHasEnded := spanHasEnded |}.

(** Lines 254-269: the arguments the original handler is called with. *)
Definition replace_callback (c : Closure) (arguments : list Arg) : list Arg :=
  let args := arguments in
  match findIndex is_function args with
  | Some callbackIdx =>
      <[callbackIdx := AFunction (patched_callback c args callbackIdx)]> arguments
  | None => arguments
  end.

(** Lines 270-278: a handler that throws leaves before the listener is
    added. *)
Definition call_original (original : Handler) (c : Closure)
    (arguments : list Arg) : M Completion :=
  result <- original arguments ;;
  match result with
  | Throw e => ret (Throw e)
  | Return v => res_once c ;; ret (Return v)
  end.

(** Lines 207-210. *)
Definition layer_attributes (route : string) : Attributes :=
  <[HTTP_ROUTE := if decide (0 < String.length route) then Some route
                  else None]>
    (<[COMPONENT := Some component]> ∅).

Definition patched_handle (layer_name : string) (layerPath : option string)
    (original : Handler) : Handler :=
  fun arguments =>
    storeLayerPath layerPath ;;
    store <- gets layers_store ;;
    let route := reconstructed_route store in
    let attributes := layer_attributes route in
    let metadata := getLayerMetadata layer_name layerPath in
    let type := attr_get (md_attributes metadata) EXPRESS_TYPE in
    config <- gets _config ;;
    if isLayerIgnored (md_name metadata) type config then original arguments
    else
      current <- getCurrentSpan ;;
      match current with
      | None => original arguments
      | Some _ =>
          rename_root type route ;;
          c <- start_layer_span metadata attributes ;;
          call_original original c (replace_callback c arguments)
      end.

(** ** Layers and [_applyPatch] (lines 189-281) *)

(** A function held in a handle slot: one of the application or of the
    framework, with its declared number of parameters, or the function of
    line 197 around another one; that function declares three parameters. *)
Inductive Handle :=
| Native (declared : nat) (body : Handler)
| Patched (layer_name : string) (layerPath : option string) (original : Handle).

Definition Function_length (f : Handle) : nat :=
  match f with
  | Native declared _ => declared
  | Patched _ _ _ => 3
  end.

Fixpoint Function_apply (f : Handle) : Handler :=
  match f with
  | Native _ body => body
  | Patched layer_name layerPath original =>
      patched_handle layer_name layerPath (Function_apply original)
  end.

(** How many times a call of the function goes through line 197's function. *)
Fixpoint interceptions (f : Handle) : nat :=
  match f with
  | Native _ _ => 0
  | Patched _ _ original => S (interceptions original)
  end.

Record ExpressLayer := {
  name : string;
  handle : Handle;
  kLayerPatched : bool
}.

(** [this._wrap(layer, 'handle', wrapper)]: the slot receives what the
    wrapper returns for the function found there. *)
Definition _wrap (layer : ExpressLayer) (wrapper : Handle -> Handle)
  : ExpressLayer :=
  {| name := name layer; handle := wrapper (handle layer);
     kLayerPatched := kLayerPatched layer |}.

Definition _applyPatch (layer : ExpressLayer) (layerPath : option string)
  : ExpressLayer :=
  if kLayerPatched layer then layer
  else
    let layer := {| name := name layer; handle := handle layer;
                    kLayerPatched := true |} in
    _wrap layer (fun original =>
      if decide (Function_length original = 4) then original
      else Patched (name layer) layerPath original).

(** ** What happens to a span once it is created

    After lines 232-245 only the two closures can reach [span] and
    [spanHasEnded]: the response emits ['finish'] and [onResponseFinish]
    runs, or the function put in place of the continuation is called; any
    other code runs elsewhere. *)
Inductive Event :=
| FinishEmitted
| ContinuationCalled (arguments : list JsVal)
| Elsewhere (code : World -> World).

Definition happen (c : Closure) (args : list Arg) (callbackIdx : nat)
    (e : Event) (w : World) : World :=
  match e with
  | FinishEmitted => snd (onResponseFinish c w)
  | ContinuationCalled arguments =>
      snd (patched_callback c args callbackIdx arguments w)
  | Elsewhere code => code w
  end.

Fixpoint happen_all (c : Closure) (args : list Arg) (callbackIdx : nat)
    (events : list Event) (w : World) : World :=
  match events with
  | [] => w
  | e :: rest =>
      happen_all c args callbackIdx rest (happen c args callbackIdx e w)
  end.

(** The span and the variable of the closure exist: the tracer has handed
    out the span and line 236 has run. *)
Definition allocated (c : Closure) (w : World) : Prop :=
  cl_span c < next_span w /\ cl_spanHasEnded c < next_cell w.

(** Code that has no access to the closure's span and variable: run once
    they exist, it does not call [end] on the span and does not assign the
    variable.  It may start spans and create closures of its own, as the
    next patched layer does. *)
Definition leaves_alone (c : Closure) (code : World -> World) : Prop :=
  forall w,
    allocated c w ->
    allocated c (code w) /\
    sp_ends (spans (code w) (cl_span c)) = sp_ends (spans w (cl_span c)) /\
    cells (code w) (cl_spanHasEnded c) = cells w (cl_spanHasEnded c).

Definition callback_leaves_alone (c : Closure) (f : Callback) : Prop :=
  forall arguments, leaves_alone c (fun w => snd (f arguments w)).

Definition argument_leaves_alone (c : Closure) (a : Arg) : Prop :=
  match a with
  | AFunction f => callback_leaves_alone c f
  | _ => True
  end.

(** A handler has no access to them either when it reaches them through
    none of the functions it is called with. *)
Definition handler_leaves_alone (c : Closure) (h : Handler) : Prop :=
  forall arguments,
    Forall (argument_leaves_alone c) arguments ->
    leaves_alone c (fun w => snd (h arguments w)).

Definition event_leaves_alone (c : Closure) (e : Event) : Prop :=
  match e with
  | Elsewhere code => leaves_alone c code
  | _ => True
  end.

(** [span.end] was called once if [spanHasEnded] is set, and not at all if
    it is not. *)
Definition ended_once (c : Closure) (w : World) : Prop :=
  length (sp_ends (spans w (cl_span c))) =
    if cells w (cl_spanHasEnded c) then 1 else 0.

(** ** A handler that passes the request on *)

(** A handler that does nothing but call the first function among its
    arguments with [values], as a middleware that calls [next(...values)]. *)
Definition passes_on (values : list JsVal) : Handler :=
  fun arguments =>
    match findIndex is_function arguments with
    | Some idx =>
        match arguments !! idx with
        | Some (AFunction next) => next values
        | _ => ret (Return VUndefined)
        end
    | None => ret (Return VUndefined)
    end.

(** ** The patches of the registration functions (lines 125-186) *)

(** What [route] and [use] are called with: the first argument is a path
    string, or something else (a pattern, a list of paths, a handler). *)
Inductive PathParams :=
| PString (path : string)
| PRegExp
| PArray (paths : list string)
| PHandler.

(** [typeof args[0] === 'string' ? args[0] : undefined] *)
Definition string_path (args : list PathParams) : option string :=
  match args !! 0 with
  | Some (PString path) => Some path
  | _ => None
  end.

(** A method of a router: it works on [this.stack]. *)
Definition RouterMethod := list PathParams -> State (list ExpressLayer) Completion.

(** A method of an application: it works on [this._router], which is
    undefined ([None]) until the application creates its router. *)
Definition ApplicationMethod :=
  list PathParams -> State (option (list ExpressLayer)) Completion.

(** Lines 132-136, 155-159 and 178-182: the layer at
    [stack[stack.length - 1]] goes through [_applyPatch]; on an empty stack
    that layer is undefined and reading its marker is a [TypeError]. *)
Definition patch_last_layer (layerPath : option string)
    (stack : list ExpressLayer) : option (list ExpressLayer) :=
  match last stack with
  | Some layer =>
      Some (<[length stack - 1 := _applyPatch layer layerPath]> stack)
  | None => None
  end.

Definition TypeError : JsVal := VError "TypeError".

(** Lines 127-138: [route_trace]. *)
Definition _getRoutePatch (original : RouterMethod) : RouterMethod :=
  fun args =>
    route <- original args ;;
    match route with
    | Throw e => ret (Throw e)
    | Return route =>
        fun stack =>
          match patch_last_layer (string_path args) stack with
          | Some stack' => (Return route, stack')
          | None => (Throw TypeError, stack)
          end
    end.

(** Lines 150-162: [use] of a router, with the body of [route_trace]. *)
Definition _getRouterUsePatch (original : RouterMethod) : RouterMethod :=
  fun args =>
    route <- original args ;;
    match route with
    | Throw e => ret (Throw e)
    | Return route =>
        fun stack =>
          match patch_last_layer (string_path args) stack with
          | Some stack' => (Return route, stack')
          | None => (Throw TypeError, stack)
          end
    end.

(** Lines 173-185: [use] of an application, on [this._router.stack]. *)
Definition _getAppUsePatch (original : ApplicationMethod) : ApplicationMethod :=
  fun args =>
    route <- original args ;;
    match route with
    | Throw e => ret (Throw e)
    | Return route =>
        fun _router =>
          match _router ≫= patch_last_layer (string_path args) with
          | Some stack' => (Return route, Some stack')
          | None => (Throw TypeError, _router)
          end
    end.

(** A handler is intercepted at most once, and not at all while its layer
    does not carry the marker. *)
Definition wrapped_at_most_once (layer : ExpressLayer) : Prop :=
  interceptions (handle layer) <= (if kLayerPatched layer then 1 else 0).

(** A series of registrations on one router. *)
Fixpoint register_all (registrations : list (RouterMethod * list PathParams))
    (stack : list ExpressLayer) : list ExpressLayer :=
  match registrations with
  | [] => stack
  | (method, args) :: rest => register_all rest (snd (method args stack))
  end.

(** ** [patch] and [unpatch] (lines 76-119) *)

(** A function slot of the module as [_wrap] and [_unwrap] of
    [InstrumentationBase] leave it: [_wrap] puts the function returned by the
    wrapper in the slot and marks it with [__wrapped] and [__original];
    [isWrapped] reads the mark; [_unwrap] puts [__original] back, and leaves a
    function without the mark where it is. *)
Inductive Slot (F : Type) :=
| Unwrapped (f : F)
| Shimmed (f : F) (__original : Slot F).

Arguments Unwrapped {F} f.
Arguments Shimmed {F} f __original.

Definition slot_function {F} (slot : Slot F) : F :=
  match slot with
  | Unwrapped f => f
  | Shimmed f _ => f
  end.

Definition isWrapped {F} (slot : Slot F) : bool :=
  match slot with
  | Unwrapped _ => false
  | Shimmed _ _ => true
  end.

Definition _wrap_slot {F} (slot : Slot F) (wrapper : F -> F) : Slot F :=
  Shimmed (wrapper (slot_function slot)) slot.

Definition _unwrap_slot {F} (slot : Slot F) : Slot F :=
  match slot with
  | Unwrapped f => Unwrapped f
  | Shimmed _ __original => __original
  end.

(** The three functions of the module that [patch] touches. *)
Record ExpressExports := {
  Router_route : Slot RouterMethod;
  Router_use : Slot RouterMethod;
  application_use : Slot ApplicationMethod
}.

Inductive ModuleExports :=
| MUndefined
| MNull
| MExports (exports : ExpressExports).

(** Lines 84-89, 91-96 and 98-107, for one slot. *)
Definition rewrap {F} (slot : Slot F) (wrapper : F -> F) : Slot F :=
  let slot := if isWrapped slot then _unwrap_slot slot else slot in
  _wrap_slot slot wrapper.

Definition patch (moduleExports : ModuleExports) : ModuleExports :=
  match moduleExports with
  | MUndefined => MUndefined
  | MNull => MNull
  | MExports exports =>
      MExports
        {| Router_route := rewrap (Router_route exports) _getRoutePatch;
           Router_use := rewrap (Router_use exports) _getRouterUsePatch;
           application_use := rewrap (application_use exports) _getAppUsePatch |}
  end.

(** [unpatch] returns at once for [undefined]; on [null] reading [Router]
    is a [TypeError] ([None]). *)
Definition unpatch (moduleExports : ModuleExports) : option ModuleExports :=
  match moduleExports with
  | MUndefined => Some MUndefined
  | MNull => None
  | MExports exports =>
      Some (MExports
        {| Router_route := _unwrap_slot (Router_route exports);
           Router_use := _unwrap_slot (Router_use exports);
           application_use := _unwrap_slot (application_use exports) |})
  end.

End Express.

Arguments Unwrapped {F} f.
Arguments Shimmed {F} f __original.

(** ** A classifier, an ignore policy and a request to run the wrapper on *)

(** Layers named ["router"] are routers, those named ["bound dispatch"] are
    request handlers, the others middleware; the configuration lists the
    names of the layers to ignore. *)
Definition sample_getLayerMetadata (layer_name : string)
    (layerPath : option string) : LayerMetadata :=
  if decide (layer_name = "router") then
    {| md_attributes := <["express.type" := Some "router"]>
                          (<["express.name" := layerPath]> ∅);
       md_name := "router - " +:+ element_text layerPath |}
  else if decide (layer_name = "bound dispatch") then
    {| md_attributes := <["express.type" := Some "request_handler"]>
                          (<["express.name" := layerPath]> ∅);
       md_name := "request handler" |}
  else
    {| md_attributes := <["express.type" := Some "middleware"]>
                          (<["express.name" := Some layer_name]> ∅);
       md_name := "middleware - " +:+ layer_name |}.

Definition sample_imports : Imports := {|
  ExpressInstrumentationConfig := list string;
  COMPONENT := "component";
  HTTP_ROUTE := "http.route";
  EXPRESS_TYPE := "express.type";
  MIDDLEWARE := "middleware";
  REQUEST_HANDLER := "request_handler";
  getLayerMetadata := sample_getLayerMetadata;
  isLayerIgnored := fun name _ config => bool_decide (name ∈ config)
|}.

Definition blank_span : SpanRecord :=
  {| sp_name := EmptyString; sp_attributes := ∅; sp_ends := [] |}.

(** A GET request at time 100, before any layer is entered: the span of the
    incoming request (handle 0, if [ambient] is set) is the only one. *)
Definition sample_world (ambient : bool) (store : list (option string))
  : @World sample_imports :=
  {| layers_store := store; req_method := "GET"; req_route := None;
     req_res := Some []; _config := [] : @ExpressInstrumentationConfig sample_imports;
     current_span := if ambient then Some 0 else None;
     spans := fun _ => blank_span; next_span := 1;
     cells := fun _ => false; next_cell := 0;
     clock := 100; calls := [] |}.

(** Code outside the wrapper: time passes. *)
Definition sleep (dt : nat) (w : @World sample_imports) : @World sample_imports :=
  {| layers_store := layers_store w; req_method := req_method w;
     req_route := req_route w; req_res := req_res w; _config := _config w;
     current_span := current_span w; spans := spans w;
     next_span := next_span w; cells := cells w; next_cell := next_cell w;
     clock := clock w + dt; calls := calls w |}.

(** The framework records the matched route on the request. *)
Definition match_route (r : string) (w : @World sample_imports)
  : @World sample_imports :=
  {| layers_store := layers_store w; req_method := req_method w;
     req_route := Some r; req_res := req_res w; _config := _config w;
     current_span := current_span w; spans := spans w;
     next_span := next_span w; cells := cells w; next_cell := next_cell w;
     clock := clock w; calls := calls w |}.

(** The end of the chain of continuations. *)
Definition done : @Callback sample_imports := fun _ => ret (Return VUndefined).

(** A handler that answers the request and returns. *)
Definition responds : @Handler sample_imports :=
  fun _ => ret (Return VUndefined).

(** A handler that works for [dt] and passes [values] to its third
    argument. *)
Definition calls_next (dt : nat) (values : list JsVal) : @Handler sample_imports :=
  fun arguments =>
    modify (sleep dt) ;;
    match arguments !! 2 with
    | Some (AFunction next) => next values
    | _ => ret (Return VUndefined)
    end.

Definition request_arguments : list (@Arg sample_imports) :=
  [AObject; AObject; AFunction done].

(** A layer whose handler declares four parameters, and a middleware. *)
Definition error_layer : @ExpressLayer sample_imports :=
  {| name := "errorHandler"; handle := Native 4 responds;
     kLayerPatched := false |}.

Definition auth_layer : @ExpressLayer sample_imports :=
  {| name := "auth"; handle := Native 3 (calls_next 5 []);
     kLayerPatched := false |}.

(** The closure of the first span created for [sample_world]. *)
Definition first_closure : Closure :=
  {| cl_span := 1; cl_startTime := 100; cl_spanHasEnded := 0 |}.

(** A middleware mounted without a path was entered at time 100 and answered
    without calling its continuation; it is now time 107. *)
Definition open_world : @World sample_imports :=
  sleep 7 (snd (patched_handle "auth" None responds request_arguments
                  (sample_world true []))).

(** What may follow: the continuation is called late, twice, and the
    response emits ['finish'] in between. *)
Definition sample_events : list (@Event sample_imports) :=
  [Elsewhere (sleep 7); ContinuationCalled []; FinishEmitted;
   ContinuationCalled [VError "again"]; FinishEmitted].

(** The framework's [route] and [use] of a router: they push a layer. *)
Definition push_layer (layer : @ExpressLayer sample_imports)
  : @RouterMethod sample_imports :=
  fun _ stack => (Return VUndefined, stack ++ [layer]).

(** The framework's [use] of an application: it creates the router when
    there is none and pushes a layer. *)
Definition app_push_layer (layer : @ExpressLayer sample_imports)
  : @ApplicationMethod sample_imports :=
  fun _ _router => (Return VUndefined, Some (default [] _router ++ [layer])).

(** The module as the framework exports it. *)
Definition plain_exports : @ExpressExports sample_imports :=
  {| Router_route := Unwrapped (push_layer auth_layer);
     Router_use := Unwrapped (push_layer auth_layer);
     application_use := Unwrapped (app_push_layer auth_layer) |}.

(** A handler that fails at once. *)
Definition fails : @Handler sample_imports :=
  fun _ => ret (Throw (VError "failed")).

(** A registration function that refuses its arguments. *)
Definition refuses : @RouterMethod sample_imports :=
  fun _ stack => (Throw (VError "refused"), stack).

(** Two registrations on a new router: a middleware under ["/api"], then an
    error handler. *)
Definition sample_registrations
  : list (@RouterMethod sample_imports * list PathParams) :=
  [(_getRouterUsePatch (push_layer auth_layer), [PString "/api"]);
   (_getRoutePatch (push_layer error_layer), [PHandler])].

(** The continuation as the framework hands it to a layer: it enters the
    next layer of the stack, here a patched request handler mounted at
    ["/:id"], which starts a span of its own. *)
Definition next_layer : @Callback sample_imports :=
  fun _ =>
    patched_handle "bound dispatch" (Some "/:id") responds request_arguments.

Definition chained_arguments : list (@Arg sample_imports) :=
  [AObject; AObject; AFunction next_layer].

(** * Properties *)

Section Properties.
Context `{Imports}.

(** ** The reconstructed route *)

Lemma append_empty_r (s : string) : s +:+ EmptyString = s.
Proof.
  induction s as [|a s IH]; [done|].
  change (String a (s +:+ EmptyString) = String a s). by rewrite IH.
Qed.

Lemma join_empty_cons (x : option string) (l : list (option string)) :
  join EmptyString (x :: l) = element_text x +:+ join EmptyString l.
Proof.
  destruct l as [|y l]; simpl; [by rewrite append_empty_r | done].
Qed.

Lemma reconstructed_route_cons (seg : option string) (store : list (option string)) :
  reconstructed_route (seg :: store) =
    if decide (seg = Some "/") then reconstructed_route store
    else element_text seg +:+ reconstructed_route store.
Proof.
  unfold reconstructed_route. rewrite filter_cons.
  destruct (decide (seg = Some "/")) as [Heq|Hne].
  - rewrite decide_False; [done | by intros Hn; apply Hn].
  - rewrite decide_True by done. apply join_empty_cons.
Qed.

(** C2: the route computed at lines 204-206 is the concatenation, in order,
    of the segments that are not ["/"]; it is empty when every segment is
    ["/"], and it is ["/api/users/:id"] for the segments ["/api"], ["/users"],
    ["/:id"]. *)
Theorem reconstructed_route_concatenates :
  (forall store : list (option string),
     reconstructed_route store = concat_non_root store) /\
  (forall store : list (option string),
     Forall (fun seg => seg = Some "/") store ->
     reconstructed_route store = EmptyString) /\
  reconstructed_route [Some "/api"; Some "/users"; Some "/:id"] = "/api/users/:id".
Proof.
  split; [|split].
  - induction store as [|seg store IH]; [done|].
    rewrite reconstructed_route_cons. simpl. by rewrite IH.
  - induction 1 as [|seg store Hseg _ IH]; [done|].
    rewrite reconstructed_route_cons. by rewrite decide_True.
  - reflexivity.
Qed.

(** ** The closures *)

Ltac run_state :=
  unfold onResponseFinish, end_from_callback, pop_layer_path, rename_root,
    start_layer_span, call_original, storeLayerPath, res_once,
    res_removeListener, span_end, startSpan, updateName, hrTime, new_cell,
    write_cell, read_cell, getCurrentSpan, tracer_bind, bind, ret, gets,
    modify;
  simpl.

Lemma upd_eq {A} (f : nat -> A) (k : nat) (v : A) : upd f k v k = v.
Proof. unfold upd. by rewrite decide_True. Qed.

Lemma pop_take {A} (l : list A) : pop l = take (length l - 1) l.
Proof.
  unfold pop. rewrite removelast_firstn_len. f_equal. lia.
Qed.

Lemma onResponseFinish_ended (c : Closure) (w : World) :
  cells w (cl_spanHasEnded c) = true -> onResponseFinish c w = (tt, w).
Proof. intros Hc. run_state. by rewrite Hc. Qed.

Lemma end_from_callback_ended (c : Closure) (w : World) :
  cells w (cl_spanHasEnded c) = true -> end_from_callback c w = (tt, w).
Proof. intros Hc. run_state. by rewrite Hc. Qed.

Lemma end_from_callback_request (c : Closure) (w : World) :
  layers_store (snd (end_from_callback c w)) = layers_store w /\
  req_route (snd (end_from_callback c w)) = req_route w.
Proof. run_state. by destruct (cells w (cl_spanHasEnded c)). Qed.

Lemma pop_layer_path_spans (arguments : list JsVal) (w : World) :
  spans (snd (pop_layer_path arguments w)) = spans w /\
  cells (snd (pop_layer_path arguments w)) = cells w /\
  req_route (snd (pop_layer_path arguments w)) = req_route w.
Proof.
  run_state.
  by destruct (bool_decide (is_Some (req_route w)) &&
               instanceof_Error (default VUndefined (arguments !! 0))).
Qed.

(** C1: a call of the function put in place of the continuation takes the
    last element off the request's path segments before it calls the original
    continuation, unless the request has a matched route and the first
    argument is an [Error]; then the segments are left as they are. *)
Theorem continuation_pops_unless_error_with_route
    (c : Closure) (args : list Arg) (callbackIdx : nat) (callback : Callback)
    (arguments : list JsVal) (w : World) :
  args !! callbackIdx = Some (AFunction callback) ->
  exists w' : World,
    patched_callback c args callbackIdx arguments w = callback arguments w' /\
    let error_with_route :=
      is_Some (req_route w) /\
      exists message rest, arguments = VError message :: rest in
    (error_with_route -> layers_store w' = layers_store w) /\
    (~ error_with_route ->
       layers_store w' = take (length (layers_store w) - 1) (layers_store w)).
Proof.
  intros Hcb. unfold patched_callback. rewrite Hcb. unfold bind, tracer_bind.
  destruct (end_from_callback_request c w) as [Hstore Hroute].
  destruct (end_from_callback c w) as [[] w1]. simpl in Hstore, Hroute.
  exists (snd (pop_layer_path arguments w1)).
  split; [by destruct (pop_layer_path arguments w1) as [[] w2]|].
  unfold pop_layer_path, bind, gets, modify, ret. rewrite Hroute. simpl.
  split.
  - intros [Hr (message & rest & ->)]. simpl.
    rewrite bool_decide_true by done. simpl. done.
  - intros Hno.
    destruct (bool_decide (is_Some (req_route w)) &&
              instanceof_Error (default VUndefined (arguments !! 0))) eqn:Hb.
    + exfalso. apply Hno. apply andb_true_iff in Hb as [Hr He].
      apply bool_decide_eq_true in Hr. split; [done|].
      destruct arguments as [|[] rest]; simpl in He; try done. by eexists _, _.
    + simpl. by rewrite Hstore, pop_take.
Qed.

(** C10: a span that is still open is ended by the ['finish'] listener with
    the captured start time as argument, which is then the reported end time;
    it is ended by the function put in place of the continuation with no
    argument, and the reported end time is the time of that call. *)
Theorem open_span_end_times
    (c : Closure) (args : list Arg) (callbackIdx : nat) (callback : Callback)
    (arguments : list JsVal) (w : World) :
  args !! callbackIdx = Some (AFunction callback) ->
  cells w (cl_spanHasEnded c) = false ->
  (let w' := snd (onResponseFinish c w) in
   exists e : EndCall,
     sp_ends (spans w' (cl_span c)) = sp_ends (spans w (cl_span c)) ++ [e] /\
     calls w' = calls w ++ [CallEnd (cl_span c) (Some (cl_startTime c))] /\
     end_arg e = Some (cl_startTime c) /\
     reported_end e = cl_startTime c) /\
  (exists (w' : World) (e : EndCall),
     patched_callback c args callbackIdx arguments w = callback arguments w' /\
     sp_ends (spans w' (cl_span c)) = sp_ends (spans w (cl_span c)) ++ [e] /\
     calls w' = calls w ++ [CallEnd (cl_span c) None] /\
     end_arg e = None /\
     reported_end e = clock w).
Proof.
  intros Hcb Hopen. split.
  - run_state. rewrite Hopen. simpl. rewrite upd_eq. simpl. by eexists.
  - unfold patched_callback. rewrite Hcb. unfold bind at 1 2, tracer_bind.
    destruct (end_from_callback c w) as [[] w1] eqn:Hend.
    destruct (pop_layer_path_spans arguments w1) as (Hs & _ & _).
    assert (calls (snd (pop_layer_path arguments w1)) = calls w1) as Hcalls.
    { run_state.
      by destruct (bool_decide (is_Some (req_route w1)) &&
                   instanceof_Error (default VUndefined (arguments !! 0))). }
    destruct (pop_layer_path arguments w1) as [[] w2]. simpl in Hs, Hcalls.
    exists w2. rewrite Hs, Hcalls.
    revert Hend. run_state. rewrite Hopen. simpl. intros [= <-]. simpl.
    rewrite upd_eq. simpl. by eexists.
Qed.

(** ** At most one end *)

Lemma upd_ne {A} (f : nat -> A) (k i : nat) (v : A) :
  i <> k -> upd f k v i = f i.
Proof. intros Hne. unfold upd. by rewrite decide_False. Qed.

Lemma onResponseFinish_counters (c : Closure) (w : World) :
  next_span (snd (onResponseFinish c w)) = next_span w /\
  next_cell (snd (onResponseFinish c w)) = next_cell w.
Proof. run_state. by destruct (cells w (cl_spanHasEnded c)). Qed.

Lemma end_from_callback_counters (c : Closure) (w : World) :
  next_span (snd (end_from_callback c w)) = next_span w /\
  next_cell (snd (end_from_callback c w)) = next_cell w.
Proof. run_state. by destruct (cells w (cl_spanHasEnded c)). Qed.

Lemma pop_layer_path_counters (arguments : list JsVal) (w : World) :
  next_span (snd (pop_layer_path arguments w)) = next_span w /\
  next_cell (snd (pop_layer_path arguments w)) = next_cell w.
Proof.
  run_state.
  by destruct (bool_decide (is_Some (req_route w)) &&
               instanceof_Error (default VUndefined (arguments !! 0))).
Qed.

Lemma onResponseFinish_ended_once (c : Closure) (w : World) :
  ended_once c w -> ended_once c (snd (onResponseFinish c w)).
Proof.
  unfold ended_once. intros Hinv.
  destruct (cells w (cl_spanHasEnded c)) eqn:Hc.
  - rewrite onResponseFinish_ended by done. simpl. by rewrite Hc.
  - run_state. rewrite Hc. simpl. rewrite !upd_eq. simpl.
    rewrite length_app, Hinv. done.
Qed.

Lemma end_from_callback_ended_once (c : Closure) (w : World) :
  ended_once c w -> ended_once c (snd (end_from_callback c w)).
Proof.
  unfold ended_once. intros Hinv.
  destruct (cells w (cl_spanHasEnded c)) eqn:Hc.
  - rewrite end_from_callback_ended by done. simpl. by rewrite Hc.
  - run_state. rewrite Hc. simpl. rewrite !upd_eq. simpl.
    rewrite length_app, Hinv. done.
Qed.

Lemma leaves_alone_ended_once (c : Closure) (code : World -> World) (w : World) :
  leaves_alone c code -> allocated c w -> ended_once c w ->
  allocated c (code w) /\ ended_once c (code w).
Proof.
  unfold ended_once. intros Hcode Halloc Hinv.
  destruct (Hcode w Halloc) as (Halloc' & -> & ->). done.
Qed.

Lemma patched_callback_ended_once
    (c : Closure) (args : list Arg) (callbackIdx : nat)
    (arguments : list JsVal) (w : World) :
  (forall callback, args !! callbackIdx = Some (AFunction callback) ->
     forall arguments, leaves_alone c (fun w => snd (callback arguments w))) ->
  allocated c w -> ended_once c w ->
  allocated c (snd (patched_callback c args callbackIdx arguments w)) /\
  ended_once c (snd (patched_callback c args callbackIdx arguments w)).
Proof.
  intros Hcb Halloc Hinv. unfold patched_callback, bind.
  pose proof (end_from_callback_ended_once c w Hinv) as Hinv1.
  destruct (end_from_callback_counters c w) as [Hs1 Hc1].
  destruct (end_from_callback c w) as [[] w1]. simpl in Hinv1, Hs1, Hc1.
  assert (ended_once c (snd (pop_layer_path arguments w1))) as Hinv2.
  { unfold ended_once.
    destruct (pop_layer_path_spans arguments w1) as (-> & -> & _). done. }
  destruct (pop_layer_path_counters arguments w1) as [Hs2 Hc2].
  destruct (pop_layer_path arguments w1) as [[] w2]. simpl in Hinv2, Hs2, Hc2.
  assert (allocated c w2) as Halloc2.
  { unfold allocated in *. by rewrite Hs2, Hc2, Hs1, Hc1. }
  destruct (args !! callbackIdx) as [[|v|callback]|] eqn:Hargs; [done..| |done].
  unfold tracer_bind.
  by apply (leaves_alone_ended_once c (fun w => snd (callback arguments w)));
    [apply Hcb| |].
Qed.

Lemma start_layer_span_ended_once
    (metadata : LayerMetadata) (attributes : Attributes) (w : World) :
  ended_once (fst (start_layer_span metadata attributes w))
             (snd (start_layer_span metadata attributes w)).
Proof.
  unfold ended_once. run_state.
  destruct (bool_decide (attr_get (md_attributes metadata) EXPRESS_TYPE
                         ≠ Some MIDDLEWARE)); simpl; by rewrite !upd_eq.
Qed.

Lemma start_layer_span_allocated
    (metadata : LayerMetadata) (attributes : Attributes) (w : World) :
  allocated (fst (start_layer_span metadata attributes w))
            (snd (start_layer_span metadata attributes w)).
Proof.
  unfold allocated. run_state.
  destruct (bool_decide (attr_get (md_attributes metadata) EXPRESS_TYPE
                         ≠ Some MIDDLEWARE)); simpl; lia.
Qed.

(** C5: [span.end] is called at most once on a span the wrapper creates,
    whatever follows its creation at lines 232-245 (with the immediate end of
    a layer that is no middleware): the ['finish'] listener and the function
    put in place of the continuation may run any number of times in any
    order, between any code that cannot reach the span and [spanHasEnded]
    (such as the next patched layers, entered by the continuation), and the
    span has been ended exactly once when [spanHasEnded] is set and not at
    all when it is not. *)
Theorem span_ended_at_most_once
    (metadata : LayerMetadata) (attributes : Attributes)
    (args : list Arg) (callbackIdx : nat) (events : list Event) (w : World) :
  let c := fst (start_layer_span metadata attributes w) in
  let w1 := snd (start_layer_span metadata attributes w) in
  (forall callback, args !! callbackIdx = Some (AFunction callback) ->
     forall arguments, leaves_alone c (fun w => snd (callback arguments w))) ->
  Forall (event_leaves_alone c) events ->
  let w2 := happen_all c args callbackIdx events w1 in
  length (sp_ends (spans w2 (cl_span c))) <= 1 /\
  length (sp_ends (spans w2 (cl_span c))) =
    (if cells w2 (cl_spanHasEnded c) then 1 else 0).
Proof.
  intros c w1 Hcb Hevents w2.
  assert (allocated c w2 /\ ended_once c w2) as [_ Hinv].
  { subst w2.
    pose proof (start_layer_span_ended_once metadata attributes w) as Hinv.
    pose proof (start_layer_span_allocated metadata attributes w) as Halloc.
    fold c w1 in Hinv, Halloc. clearbody c w1. revert w1 Hinv Halloc.
    induction Hevents as [|e events He _ IH]; intros w1 Hinv Halloc; [done|].
    simpl.
    assert (allocated c (happen c args callbackIdx e w1) /\
            ended_once c (happen c args callbackIdx e w1)) as [Halloc' Hinv'].
    { destruct e as [|arguments|code]; simpl.
      - split; [|by apply onResponseFinish_ended_once].
        destruct (onResponseFinish_counters c w1) as [Hs Hc].
        unfold allocated in *. by rewrite Hs, Hc.
      - by apply patched_callback_ended_once.
      - by apply leaves_alone_ended_once. }
    by apply IH. }
  unfold ended_once in Hinv. split; [|done].
  rewrite Hinv. destruct (cells w2 (cl_spanHasEnded c)); lia.
Qed.

(** ** The function installed on a layer *)

Lemma patched_handle_no_ambient_span
    (layer_name : string) (layerPath : option string) (w : World) :
  current_span w = None ->
  forall (original : Handler) (arguments : list Arg),
    patched_handle layer_name layerPath original arguments w =
      original arguments (snd (storeLayerPath layerPath w)).
Proof.
  intros Hcur original arguments.
  unfold patched_handle, bind at 1 2 3 4, storeLayerPath, modify, gets,
    getCurrentSpan, set_layers_store.
  simpl. destruct (isLayerIgnored _ _ _); [done|]. by rewrite Hcur.
Qed.

(** Outside a traced request the segment pushed at line 203 stays: a handler
    that leaves the sequence as long as it found it returns with one segment
    more than there was before the call. *)
Lemma no_ambient_span_keeps_pushed_segment
    (layer_name : string) (layerPath : option string) (w : World)
    (original : Handler) (arguments : list Arg) :
  current_span w = None ->
  (forall w0 : World,
     length (layers_store (snd (original arguments w0))) =
       length (layers_store w0)) ->
  length (layers_store
            (snd (patched_handle layer_name layerPath original arguments w))) =
    S (length (layers_store w)).
Proof.
  intros Hcur Hbalanced.
  rewrite patched_handle_no_ambient_span by done. rewrite Hbalanced.
  unfold storeLayerPath, modify. simpl. rewrite length_app. simpl. lia.
Qed.

(** An invocation that is neither ignored nor outside a traced request
    reaches the original handler through lines 222-270. *)
Lemma patched_handle_instrumented
    (layer_name : string) (layerPath : option string) (parent : Span)
    (w : World) :
  let metadata := getLayerMetadata layer_name layerPath in
  let type := attr_get (md_attributes metadata) EXPRESS_TYPE in
  isLayerIgnored (md_name metadata) type (_config w) = false ->
  current_span w = Some parent ->
  let w0 := snd (storeLayerPath layerPath w) in
  let route := reconstructed_route (layers_store w0) in
  let renamed := snd (rename_root type route w0) in
  let c := fst (start_layer_span metadata (layer_attributes route) renamed) in
  let w1 := snd (start_layer_span metadata (layer_attributes route) renamed) in
  forall (original : Handler) (arguments : list Arg),
    patched_handle layer_name layerPath original arguments w =
      call_original original c (replace_callback c arguments) w1.
Proof.
  intros metadata type Hign Hcur w0 route renamed c w1 original arguments.
  subst c w1 renamed route w0. unfold patched_handle.
  unfold bind at 1 2 3 4, storeLayerPath, modify, gets, getCurrentSpan.
  simpl. fold metadata. fold type.
  change (_config (set_layers_store _ w)) with (_config w).
  rewrite Hign.
  change (current_span (set_layers_store (layers_store w ++ [layerPath]) w))
    with (current_span w).
  rewrite Hcur.
  unfold bind at 1 2.
  destruct (rename_root _ _ _) as [[] renamed].
  by destruct (start_layer_span _ _ _) as [c w1].
Qed.

Lemma rename_root_spec (type : option string) (route : string)
    (parent : Span) (w : World) :
  current_span w = Some parent ->
  let w' := snd (rename_root type route w) in
  layers_store w' = layers_store w /\
  clock w' = clock w /\
  calls w' = calls w ++
    (if bool_decide (type = Some REQUEST_HANDLER)
     then [CallUpdateName parent (req_method w +:+ " " +:+ route)] else []).
Proof.
  intros Hcur. run_state.
  destruct (bool_decide (type = Some REQUEST_HANDLER)); simpl.
  - by rewrite Hcur.
  - by rewrite app_nil_r.
Qed.

Lemma start_layer_span_spec
    (metadata : LayerMetadata) (attributes : Attributes) (w : World) :
  let c := fst (start_layer_span metadata attributes w) in
  let w' := snd (start_layer_span metadata attributes w) in
  let middleware :=
    attr_get (md_attributes metadata) EXPRESS_TYPE = Some MIDDLEWARE in
  c = {| cl_span := next_span w; cl_startTime := clock w;
         cl_spanHasEnded := next_cell w |} /\
  layers_store w' = layers_store w /\
  calls w' = calls w ++
    [CallStartSpan (md_name metadata)
       (Object_assign attributes (md_attributes metadata)) (cl_span c);
     CallHrTime (cl_startTime c)] ++
    (if decide middleware then []
     else [CallEnd (cl_span c) (Some (cl_startTime c))]) /\
  sp_ends (spans w' (cl_span c)) =
    (if decide middleware then []
     else [{| end_arg := Some (cl_startTime c); end_at := clock w |}]) /\
  cells w' (cl_spanHasEnded c) = (if decide middleware then false else true).
Proof.
  run_state. destruct (decide _) as [Hmw|Hmw].
  - rewrite bool_decide_false by (by intros Hn; apply Hn). simpl.
    rewrite !upd_eq, <- !app_assoc. done.
  - rewrite bool_decide_true by done. simpl.
    rewrite !upd_eq, <- !app_assoc. done.
Qed.

Lemma rename_root_frame (type : option string) (route : string) (w : World) :
  let w' := snd (rename_root type route w) in
  next_span w' = next_span w /\ next_cell w' = next_cell w /\
  cells w' = cells w /\
  forall s, sp_ends (spans w' s) = sp_ends (spans w s).
Proof.
  run_state. destruct (bool_decide _); [|done].
  destruct (current_span w) as [parent|]; [|done]. simpl.
  repeat split. intros s. unfold upd, with_name.
  by destruct (decide _) as [->|].
Qed.

Lemma start_layer_span_frame
    (metadata : LayerMetadata) (attributes : Attributes) (w : World) :
  let c := fst (start_layer_span metadata attributes w) in
  let w' := snd (start_layer_span metadata attributes w) in
  cl_span c = next_span w /\ cl_spanHasEnded c = next_cell w /\
  next_span w' = S (next_span w) /\ next_cell w' = S (next_cell w) /\
  (forall s, s <> next_span w -> spans w' s = spans w s) /\
  (forall k, k <> next_cell w -> cells w' k = cells w k).
Proof.
  run_state. destruct (bool_decide _); simpl; repeat split;
    intros i Hi; by rewrite !upd_ne.
Qed.

Lemma rename_root_name (type : option string) (route : string)
    (parent : Span) (w : World) :
  current_span w = Some parent ->
  sp_name (spans (snd (rename_root type route w)) parent) =
    if bool_decide (type = Some REQUEST_HANDLER)
    then req_method w +:+ " " +:+ route
    else sp_name (spans w parent).
Proof.
  intros Hcur. run_state.
  destruct (bool_decide (type = Some REQUEST_HANDLER)); [|done].
  rewrite Hcur. simpl. by rewrite upd_eq.
Qed.

(** C4, as the code has it: an invocation that reaches span creation calls
    [hrTime] for the start timestamp right after [startSpan] has returned,
    and not before: the calls it makes before the original handler runs are
    those made before span creation, none of them [hrTime], then
    [startSpan], then [hrTime], then the rest. *)
Theorem start_time_captured_after_span_creation
    (layer_name : string) (layerPath : option string) (parent : Span)
    (w : World) :
  let metadata := getLayerMetadata layer_name layerPath in
  let type := attr_get (md_attributes metadata) EXPRESS_TYPE in
  isLayerIgnored (md_name metadata) type (_config w) = false ->
  current_span w = Some parent ->
  exists (c : Closure) (w1 : World) (attributes : Attributes)
         (before after : list Call),
    (forall (original : Handler) (arguments : list Arg),
       patched_handle layer_name layerPath original arguments w =
         call_original original c (replace_callback c arguments) w1) /\
    calls w1 = calls w ++ before ++
      [CallStartSpan (md_name metadata) attributes (cl_span c);
       CallHrTime (cl_startTime c)] ++ after /\
    Forall (fun call => is_hrTime call = false) before /\
    Forall (fun call => is_startSpan call = false) after.
Proof.
  intros metadata type Hign Hcur.
  pose proof (patched_handle_instrumented _ _ _ _ Hign Hcur) as Hrun.
  cbv zeta in Hrun. fold metadata type in Hrun.
  set (w0 := snd (storeLayerPath layerPath w)) in *.
  set (route := reconstructed_route (layers_store w0)) in *.
  destruct (rename_root_spec type route parent w0 Hcur) as (_ & _ & Hcalls0).
  set (renamed := snd (rename_root type route w0)) in *.
  destruct (start_layer_span_spec metadata (layer_attributes route) renamed)
    as (_ & _ & Hcalls1 & _).
  eexists _, _, _, _, _. split; [exact Hrun|].
  rewrite Hcalls1, Hcalls0, <- app_assoc. split; [done|].
  split.
  - by destruct (bool_decide (type = Some REQUEST_HANDLER)); repeat constructor.
  - by destruct (decide _); repeat constructor.
Qed.

(** C8: when an instrumented invocation comes to call the original handler,
    the span of a layer whose type is not "middleware" has been ended once,
    with the captured start time as end time, and [spanHasEnded] is set; the
    span of a middleware has not been ended and [spanHasEnded] is not set. *)
Theorem span_end_policy_by_layer_type
    (layer_name : string) (layerPath : option string) (parent : Span)
    (w : World) :
  let metadata := getLayerMetadata layer_name layerPath in
  let type := attr_get (md_attributes metadata) EXPRESS_TYPE in
  isLayerIgnored (md_name metadata) type (_config w) = false ->
  current_span w = Some parent ->
  exists (c : Closure) (w1 : World),
    (forall (original : Handler) (arguments : list Arg),
       patched_handle layer_name layerPath original arguments w =
         call_original original c (replace_callback c arguments) w1) /\
    cl_startTime c = clock w /\
    (type <> Some MIDDLEWARE ->
       (exists e : EndCall,
          sp_ends (spans w1 (cl_span c)) = [e] /\
          end_arg e = Some (cl_startTime c) /\
          reported_end e = cl_startTime c) /\
       cells w1 (cl_spanHasEnded c) = true) /\
    (type = Some MIDDLEWARE ->
       sp_ends (spans w1 (cl_span c)) = [] /\
       cells w1 (cl_spanHasEnded c) = false).
Proof.
  intros metadata type Hign Hcur.
  pose proof (patched_handle_instrumented _ _ _ _ Hign Hcur) as Hrun.
  cbv zeta in Hrun. fold metadata type in Hrun.
  set (w0 := snd (storeLayerPath layerPath w)) in *.
  set (route := reconstructed_route (layers_store w0)) in *.
  destruct (rename_root_spec type route parent w0 Hcur) as (_ & Hclock & _).
  set (renamed := snd (rename_root type route w0)) in *.
  destruct (start_layer_span_spec metadata (layer_attributes route) renamed)
    as (Hc & _ & _ & Hends & Hcell).
  eexists _, _. split; [exact Hrun|].
  fold type in Hends, Hcell. rewrite Hends, Hcell.
  split; [by rewrite Hc; simpl; rewrite Hclock|].
  split.
  - intros Hmw. rewrite !decide_False by done. split; [by eexists|done].
  - intros Hmw. by rewrite !decide_True.
Qed.

(** C9: an instrumented invocation renames the ambient span exactly when the
    layer's type is "request handler", and the new name is the request's
    method, a space and the reconstructed route: the call is made and the
    span bears the name when the original handler is entered; under the
    segments ["/items"] and ["/:id"] the name is the method followed by
    [" /items/:id"].  For a layer of any other type no such call is made and
    the span keeps its name. *)
Theorem request_handler_renames_root
    (layer_name : string) (layerPath : option string) (parent : Span)
    (w : World) :
  let metadata := getLayerMetadata layer_name layerPath in
  let type := attr_get (md_attributes metadata) EXPRESS_TYPE in
  isLayerIgnored (md_name metadata) type (_config w) = false ->
  current_span w = Some parent ->
  exists (c : Closure) (w1 : World) (others : list Call),
    (forall (original : Handler) (arguments : list Arg),
       patched_handle layer_name layerPath original arguments w =
         call_original original c (replace_callback c arguments) w1) /\
    Forall (fun call => is_updateName call = false) others /\
    layers_store w1 = layers_store (snd (storeLayerPath layerPath w)) /\
    let route := reconstructed_route (layers_store w1) in
    let name := req_method w +:+ " " +:+ route in
    (type = Some REQUEST_HANDLER ->
       calls w1 = calls w ++ CallUpdateName parent name :: others /\
       (parent <> next_span w -> sp_name (spans w1 parent) = name) /\
       (layers_store w1 = [Some "/items"; Some "/:id"] ->
          name = req_method w +:+ " /items/:id")) /\
    (type <> Some REQUEST_HANDLER ->
       calls w1 = calls w ++ others /\
       (parent <> next_span w ->
          sp_name (spans w1 parent) = sp_name (spans w parent))).
Proof.
  intros metadata type Hign Hcur.
  pose proof (patched_handle_instrumented _ _ _ _ Hign Hcur) as Hrun.
  cbv zeta in Hrun. fold metadata type in Hrun.
  set (w0 := snd (storeLayerPath layerPath w)) in *.
  set (route := reconstructed_route (layers_store w0)) in *.
  assert (current_span w0 = Some parent) as Hcur0 by exact Hcur.
  destruct (rename_root_spec type route parent w0 Hcur0)
    as (Hstore0 & _ & Hcalls0).
  pose proof (rename_root_name type route parent w0 Hcur0) as Hname0.
  destruct (rename_root_frame type route w0) as (Hns0 & _).
  set (renamed := snd (rename_root type route w0)) in *.
  destruct (start_layer_span_spec metadata (layer_attributes route) renamed)
    as (_ & Hstore1 & Hcalls1 & _).
  destruct (start_layer_span_frame metadata (layer_attributes route) renamed)
    as (_ & _ & _ & _ & Hspans1 & _).
  set (started := start_layer_span metadata (layer_attributes route) renamed) in *.
  match type of Hcalls1 with
  | _ = _ ++ ?tail => set (others := tail) in *
  end.
  assert (layers_store (snd started) = layers_store w0) as Hstore
    by (by rewrite Hstore1, Hstore0).
  exists (fst started), (snd started), others.
  split; [exact Hrun|]. split.
  { subst others. by destruct (decide _); repeat constructor. }
  split; [exact Hstore|]. cbv zeta. rewrite Hstore. fold route.
  assert (parent <> next_span w ->
          spans (snd started) parent = spans renamed parent) as Hkept.
  { intros Hne. apply Hspans1. by rewrite Hns0. }
  split.
  - intros Htype. rewrite bool_decide_true in Hcalls0, Hname0 by done.
    split; [by rewrite Hcalls1, Hcalls0, <- app_assoc|].
    split; [by intros Hne; rewrite Hkept|].
    intros Hexample. subst route. by rewrite Hexample.
  - intros Htype. rewrite bool_decide_false in Hcalls0, Hname0 by done.
    split; [by rewrite Hcalls1, Hcalls0, app_nil_r|].
    by intros Hne; rewrite Hkept.
Qed.

(** ** [_applyPatch] *)

(** C6, as the code has it: applying [_applyPatch] twice to a layer that was
    not patched leaves it as one application does, since the second finds the
    marker set by the first and returns; a call of the handler then goes
    through one more interception than before when the handler does not
    declare four parameters, and through none more when it does. *)
Theorem attach_twice_is_attach_once
    (layer : ExpressLayer) (layerPath layerPath' : option string) :
  kLayerPatched layer = false ->
  kLayerPatched (_applyPatch layer layerPath) = true /\
  _applyPatch (_applyPatch layer layerPath) layerPath' =
    _applyPatch layer layerPath /\
  interceptions (handle (_applyPatch (_applyPatch layer layerPath) layerPath')) =
    interceptions (handle layer) +
    (if decide (Function_length (handle layer) = 4) then 0 else 1).
Proof.
  intros Hfresh.
  assert (kLayerPatched (_applyPatch layer layerPath) = true) as Hmark.
  { unfold _applyPatch. by rewrite Hfresh. }
  assert (_applyPatch (_applyPatch layer layerPath) layerPath' =
          _applyPatch layer layerPath) as Hsame.
  { unfold _applyPatch at 1. by rewrite Hmark. }
  split; [done|]. split; [done|]. rewrite Hsame.
  unfold _applyPatch. rewrite Hfresh. simpl.
  destruct (decide (Function_length (handle layer) = 4)); simpl; lia.
Qed.

(** C7: [_applyPatch] leaves the handler of a layer in place when that
    handler declares four parameters, so that calling the layer does what
    calling the original does. *)
Theorem four_parameter_handler_not_wrapped
    (layer : ExpressLayer) (layerPath : option string) :
  Function_length (handle layer) = 4 ->
  handle (_applyPatch layer layerPath) = handle layer /\
  interceptions (handle (_applyPatch layer layerPath)) =
    interceptions (handle layer) /\
  forall (arguments : list Arg) (w : World),
    Function_apply (handle (_applyPatch layer layerPath)) arguments w =
      Function_apply (handle layer) arguments w.
Proof.
  intros Hfour.
  assert (handle (_applyPatch layer layerPath) = handle layer) as Hsame.
  { unfold _applyPatch. destruct (kLayerPatched layer); [done|].
    simpl. by rewrite decide_True. }
  by rewrite Hsame.
Qed.

(** ** More on the route, the span and the arguments *)

Lemma append_assoc (a b c : string) : (a +:+ b) +:+ c = a +:+ (b +:+ c).
Proof.
  induction a as [|x a IH]; [done|].
  change (String x ((a +:+ b) +:+ c) = String x (a +:+ (b +:+ c))).
  by rewrite IH.
Qed.

(** X1: the route of nested mounts is the route of the outer segments
    followed by the route of the inner ones; a layer mounted at ["/"] or
    without a path adds nothing to it. *)
Theorem reconstructed_route_of_nested_mounts
    (outer inner : list (option string)) :
  reconstructed_route (outer ++ inner) =
    reconstructed_route outer +:+ reconstructed_route inner /\
  reconstructed_route (outer ++ [Some "/"]) = reconstructed_route outer /\
  reconstructed_route (outer ++ [None]) = reconstructed_route outer.
Proof.
  assert (forall inner, reconstructed_route (outer ++ inner) =
            reconstructed_route outer +:+ reconstructed_route inner) as Happ.
  { clear inner. intros inner. induction outer as [|seg outer IH]; [done|].
    simpl. rewrite !reconstructed_route_cons, IH.
    destruct (decide (seg = Some "/")); [done|]. by rewrite append_assoc. }
  split; [apply Happ|].
  split; rewrite Happ; apply append_empty_r.
Qed.

Lemma nonempty_string_length (s : string) :
  0 < String.length s <-> s <> EmptyString.
Proof. destruct s; simpl; split; intros; (lia || done). Qed.

(** X2: the span of a layer is started under the name the classifier gives
    and with the classifier's attributes, which win over the two the wrapper
    sets: the route, undefined when it is empty, and the component. *)
Theorem layer_span_name_and_attributes
    (metadata : LayerMetadata) (route : string) (w : World) :
  let started := start_layer_span metadata (layer_attributes route) w in
  let record := spans (snd started) (cl_span (fst started)) in
  sp_name record = md_name metadata /\
  (forall key value,
     md_attributes metadata !! key = Some value ->
     sp_attributes record !! key = Some value) /\
  (md_attributes metadata !! HTTP_ROUTE = None ->
     attr_get (sp_attributes record) HTTP_ROUTE =
       if decide (route = EmptyString) then None else Some route) /\
  (md_attributes metadata !! COMPONENT = None -> COMPONENT <> HTTP_ROUTE ->
     attr_get (sp_attributes record) COMPONENT = Some component).
Proof.
  intros started record.
  assert (sp_name record = md_name metadata /\
          sp_attributes record =
            Object_assign (layer_attributes route) (md_attributes metadata))
    as [Hname Hattrs].
  { subst record started. run_state.
    destruct (bool_decide _); simpl; by rewrite !upd_eq. }
  split; [done|]. rewrite Hattrs. unfold Object_assign, attr_get, layer_attributes.
  split; [|split].
  - intros key value Hkey. by apply lookup_union_Some_l.
  - intros Hnone. rewrite lookup_union_r by done. rewrite lookup_insert_eq.
    simpl. destruct (decide (route = EmptyString)) as [->|Hne].
    + by rewrite decide_False by (simpl; lia).
    + by rewrite decide_True by (by apply nonempty_string_length).
  - intros Hnone Hne. rewrite lookup_union_r by done.
    rewrite lookup_insert_ne by done. by rewrite lookup_insert_eq.
Qed.

(** X3: of the arguments of a layer only the first function is replaced, by
    the function of lines 257-268 around it; the arguments before it are no
    functions, every other argument is handed on as it is, and without a
    function among them the arguments are handed on unchanged. *)
Theorem replace_callback_first_function (c : Closure) (arguments : list Arg) :
  length (replace_callback c arguments) = length arguments /\
  match findIndex is_function arguments with
  | Some callbackIdx =>
      (exists callback, arguments !! callbackIdx = Some (AFunction callback)) /\
      replace_callback c arguments !! callbackIdx =
        Some (AFunction (patched_callback c arguments callbackIdx)) /\
      (forall i a, i < callbackIdx -> arguments !! i = Some a ->
         is_function a = false) /\
      (forall i, i <> callbackIdx ->
         replace_callback c arguments !! i = arguments !! i)
  | None =>
      replace_callback c arguments = arguments /\
      Forall (fun a => is_function a = false) arguments
  end.
Proof.
  unfold replace_callback, findIndex.
  destruct (list_find _ arguments) as [[idx a]|] eqn:Hfind; simpl.
  - apply list_find_Some in Hfind as (Hidx & Hfun & Hfirst).
    rewrite length_insert. split; [done|].
    split; [|split; [|split]].
    + destruct a; try done. by eexists.
    + apply list_lookup_insert_eq. by eapply lookup_lt_Some.
    + intros i b Hlt Hb. specialize (Hfirst i b Hb Hlt).
      by destruct (is_function b).
    + intros i Hne. by apply list_lookup_insert_ne.
  - split; [done|]. split; [done|].
    apply list_find_None in Hfind. eapply Forall_impl; [exact Hfind|].
    intros b Hb. simpl in Hb. by destruct (is_function b).
Qed.

(** ** The listener and the order of the ends *)

(** X4: an instrumented invocation returns what the original handler
    returns.  When the handler throws, the exception goes on to the caller
    and the world is as the handler left it: no ['finish'] listener has been
    added.  When it returns, the only change is the listener added last. *)
Theorem handler_result_and_finish_listener
    (layer_name : string) (layerPath : option string) (parent : Span)
    (w : World) :
  let metadata := getLayerMetadata layer_name layerPath in
  let type := attr_get (md_attributes metadata) EXPRESS_TYPE in
  isLayerIgnored (md_name metadata) type (_config w) = false ->
  current_span w = Some parent ->
  exists (c : Closure) (w1 : World),
    forall (original : Handler) (arguments : list Arg),
      let left := snd (original (replace_callback c arguments) w1) in
      let result := patched_handle layer_name layerPath original arguments w in
      match fst (original (replace_callback c arguments) w1) with
      | Throw e => result = (Throw e, left)
      | Return v =>
          result =
            (Return v, set_req_res ((fun l => l ++ [c]) <$> req_res left) left)
      end.
Proof.
  intros metadata type Hign Hcur.
  pose proof (patched_handle_instrumented _ _ _ _ Hign Hcur) as Hrun.
  cbv zeta in Hrun.
  pose proof (Hrun (fun _ => ret (Return VUndefined)) []) as Hc.
  match type of Hc with
  | _ = call_original _ ?c _ ?w1 =>
      exists c, w1; set (closure := c) in *; set (entered := w1) in *
  end.
  clear Hc. intros original arguments. cbv zeta.
  rewrite Hrun. unfold call_original, bind, res_once, modify, ret.
  by destruct (original _ entered) as [[v|e] left].
Qed.

Lemma removeListener_snoc (c : Closure) (l : list Closure) :
  removeListener c (l ++ [c]) = l.
Proof.
  unfold removeListener. rewrite reverse_snoc. simpl.
  rewrite decide_True by done. apply reverse_involutive.
Qed.

Lemma end_from_callback_open (c : Closure) (w : World) :
  cells w (cl_spanHasEnded c) = false ->
  let w' := snd (end_from_callback c w) in
  sp_ends (spans w' (cl_span c)) =
    sp_ends (spans w (cl_span c)) ++ [{| end_arg := None; end_at := clock w |}] /\
  cells w' (cl_spanHasEnded c) = true /\
  req_res w' = removeListener c <$> req_res w.
Proof. intros Hopen. run_state. rewrite Hopen. simpl. by rewrite !upd_eq. Qed.

Lemma pop_layer_path_res (arguments : list JsVal) (w : World) :
  req_res (snd (pop_layer_path arguments w)) = req_res w.
Proof.
  run_state.
  by destruct (bool_decide (is_Some (req_route w)) &&
               instanceof_Error (default VUndefined (arguments !! 0))).
Qed.

(** X5: the function put in place of the continuation takes the ['finish']
    listener of its invocation off the response when it ends the span; when
    the span has been ended before, it leaves the listeners as they are. *)
Theorem continuation_removes_its_finish_listener
    (c : Closure) (args : list Arg) (callbackIdx : nat) (callback : Callback)
    (arguments : list JsVal) (listeners : list Closure) (w : World) :
  args !! callbackIdx = Some (AFunction callback) ->
  req_res w = Some (listeners ++ [c]) ->
  exists w' : World,
    patched_callback c args callbackIdx arguments w = callback arguments w' /\
    req_res w' =
      if cells w (cl_spanHasEnded c) then Some (listeners ++ [c])
      else Some listeners.
Proof.
  intros Hcb Hres. unfold patched_callback. rewrite Hcb.
  unfold bind at 1 2, tracer_bind.
  destruct (cells w (cl_spanHasEnded c)) eqn:Hflag.
  - rewrite end_from_callback_ended by done.
    pose proof (pop_layer_path_res arguments w) as Hpop.
    destruct (pop_layer_path arguments w) as [[] w2]. simpl in Hpop.
    exists w2. by rewrite Hpop.
  - destruct (end_from_callback_open c w Hflag) as (_ & _ & Hres1).
    destruct (end_from_callback c w) as [[] w1]. simpl in Hres1.
    pose proof (pop_layer_path_res arguments w1) as Hpop.
    destruct (pop_layer_path arguments w1) as [[] w2]. simpl in Hpop.
    exists w2. rewrite Hpop, Hres1, Hres. simpl. by rewrite removeListener_snoc.
Qed.

Lemma patched_callback_closure
    (c : Closure) (args : list Arg) (callbackIdx : nat)
    (arguments : list JsVal) (w : World) :
  (forall callback, args !! callbackIdx = Some (AFunction callback) ->
     leaves_alone c (fun w => snd (callback arguments w))) ->
  allocated c w ->
  let ended := snd (end_from_callback c w) in
  let w' := snd (patched_callback c args callbackIdx arguments w) in
  allocated c w' /\
  sp_ends (spans w' (cl_span c)) = sp_ends (spans ended (cl_span c)) /\
  cells w' (cl_spanHasEnded c) = cells ended (cl_spanHasEnded c).
Proof.
  intros Hcb Halloc. cbv zeta. unfold patched_callback, bind.
  destruct (end_from_callback_counters c w) as [Hs1 Hc1].
  destruct (end_from_callback c w) as [[] w1]. simpl in *.
  destruct (pop_layer_path_spans arguments w1) as (Hs & Hc & _).
  destruct (pop_layer_path_counters arguments w1) as [Hs2 Hc2].
  destruct (pop_layer_path arguments w1) as [[] w2]. simpl in *.
  assert (allocated c w2) as Halloc2.
  { unfold allocated in *. by rewrite Hs2, Hc2, Hs1, Hc1. }
  rewrite <- Hs, <- Hc.
  destruct (args !! callbackIdx) as [[|v|callback]|] eqn:Hargs;
    [done..| |done].
  unfold tracer_bind. apply (Hcb callback eq_refl w2 Halloc2).
Qed.

Lemma happen_all_ended
    (c : Closure) (args : list Arg) (callbackIdx : nat) (events : list Event)
    (w : World) :
  (forall callback, args !! callbackIdx = Some (AFunction callback) ->
     forall arguments, leaves_alone c (fun w => snd (callback arguments w))) ->
  Forall (event_leaves_alone c) events ->
  allocated c w ->
  cells w (cl_spanHasEnded c) = true ->
  sp_ends (spans (happen_all c args callbackIdx events w) (cl_span c)) =
    sp_ends (spans w (cl_span c)) /\
  cells (happen_all c args callbackIdx events w) (cl_spanHasEnded c) = true.
Proof.
  intros Hcb Hevents. revert w.
  induction Hevents as [|e events He _ IH]; intros w Halloc Hended; [done|].
  simpl.
  assert (allocated c (happen c args callbackIdx e w) /\
          sp_ends (spans (happen c args callbackIdx e w) (cl_span c)) =
            sp_ends (spans w (cl_span c)) /\
          cells (happen c args callbackIdx e w) (cl_spanHasEnded c) = true)
    as (Halloc' & Hs & Hc).
  { destruct e as [|arguments|code]; simpl.
    - by rewrite onResponseFinish_ended.
    - destruct (patched_callback_closure c args callbackIdx arguments w)
        as (Halloc' & Hs & Hc); [by intros callback Hargs; apply Hcb|done|].
      rewrite end_from_callback_ended in Hs, Hc by done. simpl in Hs, Hc.
      by rewrite Hs, Hc.
    - destruct (He w Halloc) as (Halloc' & Hs & Hc). by rewrite Hs, Hc. }
  destruct (IH _ Halloc' Hc) as [Hs' Hc']. by rewrite Hs', Hs.
Qed.

(** X6: of the two ways an open span can be ended the first one to happen
    decides the end: after ['finish'] the span keeps the end with the
    captured start time, after a call of the continuation it keeps the end
    without argument, whatever happens later among ['finish'] events, calls
    of the continuation and code that cannot reach the span and
    [spanHasEnded] (such as the next patched layers). *)
Theorem first_end_attempt_wins
    (c : Closure) (args : list Arg) (callbackIdx : nat) (events : list Event)
    (w : World) :
  (forall callback, args !! callbackIdx = Some (AFunction callback) ->
     forall arguments, leaves_alone c (fun w => snd (callback arguments w))) ->
  Forall (event_leaves_alone c) events ->
  allocated c w ->
  cells w (cl_spanHasEnded c) = false ->
  sp_ends (spans (happen_all c args callbackIdx (FinishEmitted :: events) w)
             (cl_span c)) =
    sp_ends (spans w (cl_span c)) ++
      [{| end_arg := Some (cl_startTime c); end_at := clock w |}] /\
  forall arguments : list JsVal,
    sp_ends (spans (happen_all c args callbackIdx
                      (ContinuationCalled arguments :: events) w)
               (cl_span c)) =
      sp_ends (spans w (cl_span c)) ++
        [{| end_arg := None; end_at := clock w |}].
Proof.
  intros Hcb Hevents Halloc Hopen. split.
  - simpl.
    assert (sp_ends (spans (snd (onResponseFinish c w)) (cl_span c)) =
              sp_ends (spans w (cl_span c)) ++
                [{| end_arg := Some (cl_startTime c); end_at := clock w |}] /\
            cells (snd (onResponseFinish c w)) (cl_spanHasEnded c) = true)
      as [Hends Hflag].
    { run_state. rewrite Hopen. simpl. by rewrite !upd_eq. }
    assert (allocated c (snd (onResponseFinish c w))) as Halloc'.
    { destruct (onResponseFinish_counters c w) as [Hs Hc].
      unfold allocated in *. by rewrite Hs, Hc. }
    destruct (happen_all_ended c args callbackIdx events _ Hcb Hevents
                Halloc' Hflag) as [-> _]. exact Hends.
  - intros arguments. simpl.
    destruct (patched_callback_closure c args callbackIdx arguments w)
      as (Halloc' & Hs & Hc); [by intros callback Hargs; apply Hcb|done|].
    destruct (end_from_callback_open c w Hopen) as (Hends & Hflag & _).
    rewrite Hflag in Hc.
    destruct (happen_all_ended c args callbackIdx events _ Hcb Hevents
                Halloc' Hc) as [-> _]. by rewrite Hs.
Qed.

(** X7: the end given at once to the span of a layer that is no middleware is
    final: whatever follows among ['finish'] events, calls of the
    continuation and code that cannot reach the span and [spanHasEnded], the
    span keeps that one end, at the captured start time. *)
Theorem immediate_end_is_final
    (metadata : LayerMetadata) (attributes : Attributes)
    (args : list Arg) (callbackIdx : nat) (events : list Event) (w : World) :
  attr_get (md_attributes metadata) EXPRESS_TYPE <> Some MIDDLEWARE ->
  let c := fst (start_layer_span metadata attributes w) in
  let w1 := snd (start_layer_span metadata attributes w) in
  (forall callback, args !! callbackIdx = Some (AFunction callback) ->
     forall arguments, leaves_alone c (fun w => snd (callback arguments w))) ->
  Forall (event_leaves_alone c) events ->
  sp_ends (spans (happen_all c args callbackIdx events w1) (cl_span c)) =
    [{| end_arg := Some (clock w); end_at := clock w |}].
Proof.
  intros Htype c w1 Hcb Hevents.
  destruct (start_layer_span_spec metadata attributes w)
    as (Hc & _ & _ & Hends & Hflag).
  pose proof (start_layer_span_allocated metadata attributes w) as Halloc.
  fold c w1 in Hc, Hends, Hflag, Halloc.
  destruct (decide _) as [Hmw|_] in Hends, Hflag; [done|].
  destruct (happen_all_ended c args callbackIdx events w1 Hcb Hevents
              Halloc Hflag) as [-> _]. rewrite Hends, Hc. done.
Qed.

(** ** A middleware that passes the request on *)

Lemma findIndex_replace_callback
    (c : Closure) (arguments : list Arg) (callbackIdx : nat) :
  findIndex is_function arguments = Some callbackIdx ->
  findIndex is_function (replace_callback c arguments) = Some callbackIdx /\
  replace_callback c arguments !! callbackIdx =
    Some (AFunction (patched_callback c arguments callbackIdx)).
Proof.
  intros Hfind. unfold replace_callback. rewrite Hfind.
  unfold findIndex in *.
  destruct (list_find _ arguments) as [[idx a]|] eqn:Hlist; [|done].
  simpl in Hfind. injection Hfind as ->.
  apply list_find_Some in Hlist as (Hidx & _ & Hfirst).
  assert (callbackIdx < length arguments) as Hlt by (by eapply lookup_lt_Some).
  split; [|by apply list_lookup_insert_eq].
  assert (list_find (fun x => is_function x = true)
            (<[callbackIdx:=AFunction (patched_callback c arguments callbackIdx)]>
               arguments) =
          Some (callbackIdx,
                AFunction (patched_callback c arguments callbackIdx))) as ->.
  { apply list_find_Some. split; [by apply list_lookup_insert_eq|].
    split; [done|]. intros j y Hj Hjlt.
    rewrite list_lookup_insert_ne in Hj by lia. by eapply Hfirst. }
  done.
Qed.

Lemma rename_root_counters (type : option string) (route : string) (w : World) :
  let w' := snd (rename_root type route w) in
  next_span w' = next_span w /\ next_cell w' = next_cell w /\ clock w' = clock w.
Proof.
  run_state. destruct (bool_decide _); [|done].
  by destruct (current_span w).
Qed.

Lemma start_layer_span_clock
    (metadata : LayerMetadata) (attributes : Attributes) (w : World) :
  clock (snd (start_layer_span metadata attributes w)) = clock w.
Proof. run_state. by destruct (bool_decide _). Qed.

(** X8: a middleware that does nothing but call its continuation, entered
    in a traced request: when the call is over its span has been ended
    exactly once, by the continuation and without a time argument, and the
    ['finish'] listener that may have been added afterwards finds the span
    ended and does nothing.  The continuation may do anything but reach the
    span and [spanHasEnded] of this invocation; it may enter the next patched
    layers. *)
Theorem middleware_passing_on_ends_span_once
    (layer_name : string) (layerPath : option string) (parent : Span)
    (arguments : list Arg) (callbackIdx : nat) (callback : Callback)
    (values : list JsVal) (w : World) :
  let metadata := getLayerMetadata layer_name layerPath in
  let type := attr_get (md_attributes metadata) EXPRESS_TYPE in
  let c := {| cl_span := next_span w; cl_startTime := clock w;
              cl_spanHasEnded := next_cell w |} in
  isLayerIgnored (md_name metadata) type (_config w) = false ->
  current_span w = Some parent ->
  type = Some MIDDLEWARE ->
  findIndex is_function arguments = Some callbackIdx ->
  arguments !! callbackIdx = Some (AFunction callback) ->
  leaves_alone c (fun w => snd (callback values w)) ->
  let final :=
    snd (patched_handle layer_name layerPath (passes_on values) arguments w) in
  sp_ends (spans final (cl_span c)) =
    [{| end_arg := None; end_at := clock w |}] /\
  cells final (cl_spanHasEnded c) = true /\
  onResponseFinish c final = (tt, final).
Proof.
  intros metadata type c Hign Hcur Htype Hfind Hidx Hcallback final.
  pose proof (patched_handle_instrumented _ _ _ _ Hign Hcur) as Hrun.
  cbv zeta in Hrun. fold metadata type in Hrun.
  set (w0 := snd (storeLayerPath layerPath w)) in *.
  set (route := reconstructed_route (layers_store w0)) in *.
  destruct (rename_root_counters type route w0) as (Hnext & Hcell & Hclock).
  set (renamed := snd (rename_root type route w0)) in *.
  destruct (start_layer_span_spec metadata (layer_attributes route) renamed)
    as (Hc & _ & _ & Hends & Hflag).
  pose proof (start_layer_span_clock metadata (layer_attributes route) renamed)
    as Hclock1.
  fold type in Hends, Hflag.
  destruct (decide (type = Some MIDDLEWARE)) as [_|Hno] in Hends, Hflag; [|done].
  set (started := start_layer_span metadata (layer_attributes route) renamed) in *.
  assert (fst started = c) as Hc' by (by rewrite Hc, Hnext, Hcell, Hclock).
  rewrite Hc' in Hrun, Hends, Hflag. set (w1 := snd started) in *.
  assert (sp_ends (spans final (cl_span c)) =
            [{| end_arg := None; end_at := clock w |}] /\
          cells final (cl_spanHasEnded c) = true) as [Hfinal Hended].
  { subst final. rewrite Hrun. unfold call_original, bind, res_once, modify, ret.
    destruct (findIndex_replace_callback c arguments callbackIdx Hfind)
      as [Hfind' Hidx'].
    unfold passes_on. rewrite Hfind', Hidx'.
    pose proof (start_layer_span_allocated metadata (layer_attributes route)
                  renamed) as Halloc.
    fold started in Halloc. rewrite Hc' in Halloc. fold w1 in Halloc.
    destruct (patched_callback_closure c arguments callbackIdx values w1)
      as (_ & Hs & Hcl); [|done|].
    { intros callback' Hcb'. rewrite Hidx in Hcb'. by injection Hcb' as <-. }
    destruct (end_from_callback_open c w1 Hflag) as (Hends1 & Hflag1 & _).
    rewrite Hends, Hclock1, Hclock, app_nil_l in Hends1.
    rewrite <- Hs in Hends1. rewrite <- Hcl in Hflag1.
    change (clock w0) with (clock w) in Hends1.
    by destruct (patched_callback c arguments callbackIdx values w1)
      as [[v|e] w2]. }
  split; [done|]. split; [done|]. by apply onResponseFinish_ended.
Qed.

(** ** Registration *)

Lemma patch_last_layer_snoc (layerPath : option string)
    (rest : list ExpressLayer) (layer : ExpressLayer) :
  patch_last_layer layerPath (rest ++ [layer]) =
    Some (rest ++ [_applyPatch layer layerPath]).
Proof.
  unfold patch_last_layer. rewrite last_snoc, length_app. simpl.
  rewrite insert_app_r_alt by lia.
  by replace (length rest + 1 - 1 - length rest) with 0 by lia.
Qed.

(** X9: the patched [route] and [use] of a router and [use] of an
    application return what the original returns and hand exactly one layer
    to [_applyPatch]: the last one of the stack.  The layers below it are
    left as the original left them, also those pushed by the same call.  The
    mount path handed over is the first argument when that is a string, and
    undefined otherwise. *)
Theorem registration_patches_last_layer
    (args : list PathParams) (route : JsVal)
    (rest : list ExpressLayer) (layer : ExpressLayer) :
  (forall (original : RouterMethod) (stack : list ExpressLayer),
     original args stack = (Return route, rest ++ [layer]) ->
     _getRoutePatch original args stack =
       (Return route, rest ++ [_applyPatch layer (string_path args)]) /\
     _getRouterUsePatch original args stack =
       (Return route, rest ++ [_applyPatch layer (string_path args)])) /\
  (forall (original : ApplicationMethod) (_router : option (list ExpressLayer)),
     original args _router = (Return route, Some (rest ++ [layer])) ->
     _getAppUsePatch original args _router =
       (Return route, Some (rest ++ [_applyPatch layer (string_path args)]))) /\
  (forall path : string,
     string_path args = Some path <-> exists more, args = PString path :: more).
Proof.
  split; [|split].
  - intros original stack Horiginal.
    unfold _getRoutePatch, _getRouterUsePatch, bind.
    by rewrite Horiginal, patch_last_layer_snoc.
  - intros original _router Horiginal. unfold _getAppUsePatch, bind.
    rewrite Horiginal. simpl. by rewrite patch_last_layer_snoc.
  - intros path. unfold string_path. split.
    + destruct args as [|[] more]; simpl; try done.
      intros [= ->]. by eexists.
    + by intros [more ->].
Qed.

(** X10: when the original registration function throws, its patch throws
    the same and patches nothing.  When the original returns and the stack is
    empty, or the application has no router, there is no layer to read the
    marker of and the patch throws a [TypeError], leaving the stack as it
    is. *)
Theorem registration_failures (args : list PathParams) :
  (forall (original : RouterMethod) (stack stack' : list ExpressLayer) e,
     original args stack = (Throw e, stack') ->
     _getRoutePatch original args stack = (Throw e, stack') /\
     _getRouterUsePatch original args stack = (Throw e, stack')) /\
  (forall (original : RouterMethod) (stack : list ExpressLayer) route,
     original args stack = (Return route, []) ->
     _getRoutePatch original args stack = (Throw TypeError, []) /\
     _getRouterUsePatch original args stack = (Throw TypeError, [])) /\
  (forall (original : ApplicationMethod) _router _router' e,
     original args _router = (Throw e, _router') ->
     _getAppUsePatch original args _router = (Throw e, _router')) /\
  (forall (original : ApplicationMethod) _router _router' route,
     original args _router = (Return route, _router') ->
     _router' = None \/ _router' = Some [] ->
     _getAppUsePatch original args _router = (Throw TypeError, _router')).
Proof.
  split; [|split; [|split]].
  - intros original stack stack' e Horiginal.
    unfold _getRoutePatch, _getRouterUsePatch, bind. by rewrite Horiginal.
  - intros original stack route Horiginal.
    unfold _getRoutePatch, _getRouterUsePatch, bind. by rewrite Horiginal.
  - intros original _router _router' e Horiginal.
    unfold _getAppUsePatch, bind. by rewrite Horiginal.
  - intros original _router _router' route Horiginal Hempty.
    unfold _getAppUsePatch, bind. rewrite Horiginal.
    by destruct Hempty as [-> | ->].
Qed.

Lemma _applyPatch_wrapped_at_most_once
    (layer : ExpressLayer) (layerPath : option string) :
  wrapped_at_most_once layer ->
  wrapped_at_most_once (_applyPatch layer layerPath).
Proof.
  unfold wrapped_at_most_once, _applyPatch.
  destruct (kLayerPatched layer) eqn:Hpatched; [by rewrite Hpatched|].
  simpl. intros Hzero.
  destruct (decide (Function_length (handle layer) = 4)); simpl; lia.
Qed.

Lemma patch_last_layer_wrapped_at_most_once
    (layerPath : option string) (stack stack' : list ExpressLayer) :
  Forall wrapped_at_most_once stack ->
  patch_last_layer layerPath stack = Some stack' ->
  Forall wrapped_at_most_once stack'.
Proof.
  intros Hstack. unfold patch_last_layer.
  destruct (last stack) as [layer|] eqn:Hlast; [|done].
  intros [= <-]. apply Forall_insert; [done|].
  apply _applyPatch_wrapped_at_most_once.
  rewrite last_lookup in Hlast.
  by eapply (Forall_lookup_1 _ _ _ _ Hstack).
Qed.

Lemma patched_method_wrapped_at_most_once
    (original : RouterMethod) (args : list PathParams)
    (stack : list ExpressLayer) :
  (forall args stack, Forall wrapped_at_most_once stack ->
     Forall wrapped_at_most_once (snd (original args stack))) ->
  Forall wrapped_at_most_once stack ->
  Forall wrapped_at_most_once (snd (_getRoutePatch original args stack)) /\
  Forall wrapped_at_most_once (snd (_getRouterUsePatch original args stack)).
Proof.
  intros Horiginal Hstack. specialize (Horiginal args stack Hstack).
  unfold _getRoutePatch, _getRouterUsePatch, bind.
  destruct (original args stack) as [[route|e] stack']; simpl in *; [|done].
  destruct (patch_last_layer (string_path args) stack') as [stack''|] eqn:Hpatch;
    simpl; [|done].
  by split;
    apply (patch_last_layer_wrapped_at_most_once (string_path args) stack').
Qed.

(** X11: however many times the patched [route] and [use] are called on a
    router, no handler in its stack is ever intercepted more than once, and
    none is intercepted without its layer carrying the marker, as long as the
    original functions themselves keep it so (as they do when they push
    layers of their own making and leave the others alone). *)
Theorem registrations_never_wrap_twice
    (registrations : list (RouterMethod * list PathParams))
    (stack : list ExpressLayer) :
  Forall (fun registration =>
            exists original : RouterMethod,
              (fst registration = _getRoutePatch original \/
               fst registration = _getRouterUsePatch original) /\
              forall args stack, Forall wrapped_at_most_once stack ->
                Forall wrapped_at_most_once (snd (original args stack)))
         registrations ->
  Forall wrapped_at_most_once stack ->
  Forall wrapped_at_most_once (register_all registrations stack).
Proof.
  intros Hregistrations. revert stack.
  induction Hregistrations as [|[method args] rest Hmethod _ IH];
    intros stack Hstack; [done|].
  simpl. apply IH.
  destruct Hmethod as (original & Hpatched & Horiginal). simpl in Hpatched.
  destruct (patched_method_wrapped_at_most_once original args stack
              Horiginal Hstack) as [Hroute Huse].
  by destruct Hpatched as [-> | ->].
Qed.

(** ** [patch] and [unpatch] *)

Lemma rewrap_rewrap {F} (slot : Slot F) (wrapper : F -> F) :
  rewrap (rewrap slot wrapper) wrapper = rewrap slot wrapper.
Proof. by destruct slot. Qed.

Lemma _unwrap_slot_rewrap {F} (slot : Slot F) (wrapper : F -> F) :
  _unwrap_slot (rewrap slot wrapper) = _unwrap_slot slot.
Proof. by destruct slot. Qed.

(** X12: patching a module that is patched already changes nothing: each of
    the three functions is unwrapped first, so it is never wrapped inside its
    own patch; [undefined] and [null] are returned as they are. *)
Theorem patch_idempotent (moduleExports : ModuleExports) :
  patch (patch moduleExports) = patch moduleExports /\
  patch MUndefined = MUndefined /\
  patch MNull = MNull.
Proof.
  split; [|done]. destruct moduleExports as [| |exports]; [done..|].
  cbn [patch Router_route Router_use application_use].
  by rewrite !rewrap_rewrap.
Qed.

(** X13: [unpatch] undoes [patch]: on a module none of whose three functions
    was wrapped, it gives the module back; in general it gives what [unpatch]
    gives without [patch], since [patch] takes off a wrapper it finds on a
    function before putting on its own. *)
Theorem unpatch_after_patch (moduleExports : ModuleExports) :
  unpatch (patch moduleExports) = unpatch moduleExports /\
  forall exports : ExpressExports,
    moduleExports = MExports exports ->
    isWrapped (Router_route exports) = false ->
    isWrapped (Router_use exports) = false ->
    isWrapped (application_use exports) = false ->
    unpatch (patch moduleExports) = Some moduleExports.
Proof.
  assert (unpatch (patch moduleExports) = unpatch moduleExports) as Hsame.
  { destruct moduleExports as [| |exports]; [done..|].
    cbn [patch unpatch Router_route Router_use application_use].
    by rewrite !_unwrap_slot_rewrap. }
  split; [done|]. intros exports -> Hroute Huse Happ. rewrite Hsame.
  destruct exports as [[] [] []]; by simpl in *.
Qed.

(** ** The next patched layer cannot reach the closures of this one *)

Lemma patched_handle_ignored
    (layer_name : string) (layerPath : option string) (w : World) :
  let metadata := getLayerMetadata layer_name layerPath in
  let type := attr_get (md_attributes metadata) EXPRESS_TYPE in
  isLayerIgnored (md_name metadata) type (_config w) = true ->
  forall (original : Handler) (arguments : list Arg),
    patched_handle layer_name layerPath original arguments w =
      original arguments (snd (storeLayerPath layerPath w)).
Proof.
  intros metadata type Hign original arguments.
  unfold patched_handle, bind at 1 2 3, storeLayerPath, modify, gets.
  simpl. fold metadata. fold type.
  change (_config (set_layers_store _ w)) with (_config w).
  by rewrite Hign.
Qed.

Lemma end_from_callback_other (c' c : Closure) (w : World) :
  cl_span c' <> cl_span c -> cl_spanHasEnded c' <> cl_spanHasEnded c ->
  sp_ends (spans (snd (end_from_callback c' w)) (cl_span c)) =
    sp_ends (spans w (cl_span c)) /\
  cells (snd (end_from_callback c' w)) (cl_spanHasEnded c) =
    cells w (cl_spanHasEnded c).
Proof.
  intros Hspan Hcell. run_state.
  destruct (cells w (cl_spanHasEnded c')); simpl; [done|].
  by rewrite !upd_ne by done.
Qed.

Lemma patched_callback_other
    (c' c : Closure) (args : list Arg) (callbackIdx : nat) :
  cl_span c' <> cl_span c -> cl_spanHasEnded c' <> cl_spanHasEnded c ->
  (forall callback, args !! callbackIdx = Some (AFunction callback) ->
     callback_leaves_alone c callback) ->
  callback_leaves_alone c (patched_callback c' args callbackIdx).
Proof.
  intros Hspan Hcell Hcb arguments w Halloc.
  unfold patched_callback, bind.
  destruct (end_from_callback_other c' c w Hspan Hcell) as [He1 Hc1].
  destruct (end_from_callback_counters c' w) as [Hns1 Hnc1].
  destruct (end_from_callback c' w) as [[] w1]. simpl in *.
  destruct (pop_layer_path_spans arguments w1) as (Hs2 & Hc2 & _).
  destruct (pop_layer_path_counters arguments w1) as [Hns2 Hnc2].
  destruct (pop_layer_path arguments w1) as [[] w2]. simpl in *.
  assert (allocated c w2) as Halloc2.
  { unfold allocated in *. by rewrite Hns2, Hnc2, Hns1, Hnc1. }
  rewrite <- He1, <- Hc1, <- Hs2, <- Hc2.
  destruct (args !! callbackIdx) as [[|v|callback]|] eqn:Hargs;
    [done..| |done].
  unfold tracer_bind. apply (Hcb callback eq_refl arguments w2 Halloc2).
Qed.

(** Starting a span and creating a closure variable leave the existing
    closures alone. *)
Lemma startSpan_leaves_alone
    (c : Closure) (span_name : string) (attributes : Attributes) :
  leaves_alone c (fun w => snd (startSpan span_name attributes w)).
Proof.
  intros w [Hspan Hcell]. unfold startSpan, allocated. simpl.
  rewrite upd_ne by lia. repeat split; (lia || done).
Qed.

Lemma new_cell_leaves_alone (c : Closure) (v : bool) :
  leaves_alone c (fun w => snd (new_cell v w)).
Proof.
  intros w [Hspan Hcell]. unfold new_cell, allocated. simpl.
  rewrite upd_ne by lia. repeat split; (lia || done).
Qed.

(** A patched layer, entered when a closure exists, starts a span and creates
    a closure of its own and reaches the existing one no more than its
    original handler does. *)
Lemma patched_handle_leaves_alone
    (c : Closure) (layer_name : string) (layerPath : option string)
    (original : Handler) :
  handler_leaves_alone c original ->
  handler_leaves_alone c (patched_handle layer_name layerPath original).
Proof.
  intros Horiginal arguments Hargs w Halloc.
  set (metadata := getLayerMetadata layer_name layerPath).
  set (type := attr_get (md_attributes metadata) EXPRESS_TYPE).
  set (w0 := snd (storeLayerPath layerPath w)).
  assert (allocated c w0) as Halloc0 by exact Halloc.
  change (sp_ends (spans w (cl_span c))) with (sp_ends (spans w0 (cl_span c))).
  change (cells w (cl_spanHasEnded c)) with (cells w0 (cl_spanHasEnded c)).
  destruct (isLayerIgnored (md_name metadata) type (_config w)) eqn:Hign.
  { rewrite (patched_handle_ignored layer_name layerPath w Hign).
    by apply Horiginal. }
  destruct (current_span w) as [parent|] eqn:Hcur; cycle 1.
  { rewrite (patched_handle_no_ambient_span layer_name layerPath w Hcur).
    by apply Horiginal. }
  pose proof (patched_handle_instrumented _ _ _ _ Hign Hcur) as Hrun.
  cbv zeta in Hrun. fold metadata type w0 in Hrun. rewrite Hrun. clear Hrun.
  set (route := reconstructed_route (layers_store w0)).
  destruct (rename_root_frame type route w0) as (Hns0 & Hnc0 & Hcells0 & Hends0).
  set (renamed := snd (rename_root type route w0)) in *.
  destruct (start_layer_span_frame metadata (layer_attributes route) renamed)
    as (Hspan & Hcell & Hns1 & Hnc1 & Hspans1 & Hcells1).
  set (c' := fst (start_layer_span metadata (layer_attributes route) renamed)) in *.
  set (w1 := snd (start_layer_span metadata (layer_attributes route) renamed)) in *.
  destruct Halloc0 as [Hlt_span Hlt_cell].
  assert (cl_span c' <> cl_span c) as Hne_span by lia.
  assert (cl_spanHasEnded c' <> cl_spanHasEnded c) as Hne_cell by lia.
  assert (allocated c w1) as Halloc1 by (unfold allocated; lia).
  assert (Forall (argument_leaves_alone c) (replace_callback c' arguments))
    as Hargs'.
  { unfold replace_callback.
    destruct (findIndex is_function arguments) as [idx|]; [|done].
    apply Forall_insert; [done|]. simpl.
    apply patched_callback_other; [done..|].
    intros callback Hidx.
    by apply (Forall_lookup_1 _ _ _ _ Hargs Hidx). }
  destruct (Horiginal _ Hargs' w1 Halloc1) as (Halloc2 & Hends2 & Hcells2).
  rewrite <- Hends0, <- Hcells0.
  rewrite <- (Hspans1 (cl_span c)) by lia.
  rewrite <- (Hcells1 (cl_spanHasEnded c)) by lia.
  rewrite <- Hends2, <- Hcells2.
  unfold call_original, bind, res_once, modify, ret.
  by destruct (original (replace_callback c' arguments) w1) as [[v|e] w2].
Qed.

End Properties.

(** * The wrapper on a concrete request *)

#[local] Existing Instance sample_imports.

Lemma reconstructed_route_concatenates_witness :
  Forall (fun seg => seg = Some "/") [Some "/"; Some "/"] /\
  reconstructed_route [Some "/"; Some "/"] = EmptyString.
Proof.
  assert (Forall (fun seg => seg = Some "/") [Some "/"; Some "/"]) as Hall
    by (repeat constructor).
  split; [exact Hall|].
  exact (proj1 (proj2 reconstructed_route_concatenates) _ Hall).
Defined.

Lemma continuation_pops_unless_error_with_route_witness :
  request_arguments !! 2 = Some (AFunction done) /\
  (exists w' : World,
     patched_callback first_closure request_arguments 2 [VError "denied"]
       (match_route "/items/:id" (sample_world true [Some "/items"; Some "/:id"]))
       = done [VError "denied"] w' /\
     layers_store w' = [Some "/items"; Some "/:id"]) /\
  (exists w' : World,
     patched_callback first_closure request_arguments 2 []
       (match_route "/items/:id" (sample_world true [Some "/items"; Some "/:id"]))
       = done [] w' /\
     layers_store w' = [Some "/items"]).
Proof.
  split; [reflexivity|]. split.
  - destruct (continuation_pops_unless_error_with_route first_closure
                request_arguments 2 done [VError "denied"]
                (match_route "/items/:id"
                   (sample_world true [Some "/items"; Some "/:id"])) eq_refl)
      as (w' & Hrun & Hkept & _).
    exists w'. split; [exact Hrun|]. apply Hkept.
    split; [by eexists | by eexists _, _].
  - destruct (continuation_pops_unless_error_with_route first_closure
                request_arguments 2 done []
                (match_route "/items/:id"
                   (sample_world true [Some "/items"; Some "/:id"])) eq_refl)
      as (w' & Hrun & _ & Hpopped).
    exists w'. split; [exact Hrun|]. apply Hpopped.
    by intros (_ & message & rest & Hargs).
Defined.

(** C3, at a request outside any trace: a middleware mounted at ["/x"] is
    entered with no ambient span.  No span is created, but the segment pushed
    at line 203 is still there when the call is over, whether the handler
    calls its continuation or answers the request: the sequence has one
    element more than before. *)
Lemma no_ambient_span_leaves_segment :
  let w := sample_world false [] in
  let continued :=
    snd (patched_handle "auth" (Some "/x") (calls_next 5 [])
           request_arguments w) in
  let answered :=
    snd (patched_handle "auth" (Some "/x") responds request_arguments w) in
  (next_span continued = next_span w /\ calls continued = []) /\
  (next_span answered = next_span w /\ calls answered = []) /\
  length (layers_store w) = 0 /\
  length (layers_store continued) = 1 /\
  length (layers_store answered) = 1.
Proof. vm_compute. done. Qed.

(** C4, as the spec states it, fails on a middleware entered at time 100:
    [startSpan] is the first call the invocation makes and [hrTime] the
    second. *)
Lemma start_time_not_captured_before_creation :
  let made :=
    calls (snd (patched_handle "auth" (Some "/x") responds request_arguments
                  (sample_world true []))) in
  findIndex is_startSpan made = Some 0 /\
  findIndex is_hrTime made = Some 1 /\
  captured_before_creation made = false.
Proof. vm_compute. done. Qed.

Lemma start_time_captured_after_span_creation_witness :
  isLayerIgnored "middleware - auth" (Some "middleware") [] = false /\
  current_span (sample_world true []) = Some 0 /\
  exists (c : Closure) (w1 : World) (attributes : Attributes)
         (before after : list Call),
    calls w1 = before ++
      [CallStartSpan "middleware - auth" attributes (cl_span c);
       CallHrTime (cl_startTime c)] ++ after /\
    Forall (fun call => is_hrTime call = false) before.
Proof.
  split; [reflexivity|]. split; [reflexivity|].
  destruct (start_time_captured_after_span_creation "auth" (Some "/x") 0
              (sample_world true []) eq_refl eq_refl)
    as (c & w1 & attributes & before & after & _ & Hcalls & Hbefore & _).
  exists c, w1, attributes, before, after. split; [exact Hcalls | exact Hbefore].
Defined.

Lemma next_layer_leaves_alone (c : Closure) :
  callback_leaves_alone c next_layer.
Proof.
  intros arguments.
  apply (patched_handle_leaves_alone c "bound dispatch" (Some "/:id") responds).
  - intros args _ w Halloc. by split.
  - constructor; [exact I|]. constructor; [exact I|].
    constructor; [|constructor]. intros values w0 Halloc. by split.
Qed.

Lemma sample_events_leave_alone (c : Closure) :
  Forall (event_leaves_alone c) sample_events.
Proof.
  constructor; [by intros w Halloc; split|]. by repeat constructor.
Qed.

Lemma span_ended_at_most_once_witness :
  let metadata := getLayerMetadata "auth" None in
  let started :=
    start_layer_span metadata (layer_attributes EmptyString)
      (sample_world true [None]) in
  let final :=
    happen_all first_closure chained_arguments 2 sample_events (snd started) in
  fst started = first_closure /\
  (forall callback, chained_arguments !! 2 = Some (AFunction callback) ->
     forall arguments,
       leaves_alone first_closure (fun w => snd (callback arguments w))) /\
  Forall (event_leaves_alone first_closure) sample_events /\
  next_span (snd started) = 2 /\ next_span final = 4 /\
  length (sp_ends (spans final 1)) <= 1.
Proof.
  assert (forall callback, chained_arguments !! 2 = Some (AFunction callback) ->
            forall arguments,
              leaves_alone first_closure (fun w => snd (callback arguments w)))
    as Hcallback.
  { intros callback [= <-]. apply next_layer_leaves_alone. }
  pose proof (sample_events_leave_alone first_closure) as Hevents.
  split; [reflexivity|]. split; [exact Hcallback|]. split; [exact Hevents|].
  split; [reflexivity|]. split; [vm_compute; reflexivity|].
  exact (proj1 (span_ended_at_most_once (getLayerMetadata "auth" None)
                  (layer_attributes EmptyString) chained_arguments 2
                  sample_events (sample_world true [None]) Hcallback Hevents)).
Defined.

(** C6, as the spec states it, fails on a layer whose handler declares four
    parameters: after two applications of [_applyPatch] no call of its handler
    is intercepted. *)
Lemma attach_twice_four_parameters :
  kLayerPatched error_layer = false /\
  interceptions
    (handle (_applyPatch (_applyPatch error_layer (Some "/")) (Some "/"))) = 0 /\
  interceptions
    (handle (_applyPatch (_applyPatch error_layer (Some "/")) (Some "/"))) <> 1.
Proof. vm_compute. repeat split; discriminate. Qed.

Lemma attach_twice_is_attach_once_witness :
  kLayerPatched auth_layer = false /\
  _applyPatch (_applyPatch auth_layer (Some "/api")) None =
    _applyPatch auth_layer (Some "/api") /\
  interceptions
    (handle (_applyPatch (_applyPatch auth_layer (Some "/api")) None)) = 1.
Proof.
  split; [reflexivity|].
  destruct (attach_twice_is_attach_once auth_layer (Some "/api") None eq_refl)
    as (_ & Hsame & Hcount).
  split; [exact Hsame | exact Hcount].
Defined.

Lemma four_parameter_handler_not_wrapped_witness :
  Function_length (handle error_layer) = 4 /\
  handle (_applyPatch error_layer (Some "/")) = Native 4 responds.
Proof.
  split; [reflexivity|].
  exact (proj1 (four_parameter_handler_not_wrapped error_layer (Some "/") eq_refl)).
Defined.

Lemma span_end_policy_by_layer_type_witness :
  isLayerIgnored "request handler" (Some "request_handler") [] = false /\
  current_span (sample_world true [Some "/items"]) = Some 0 /\
  exists (c : Closure) (w1 : World),
    (forall (original : Handler) (arguments : list Arg),
       patched_handle "bound dispatch" (Some "/:id") original arguments
         (sample_world true [Some "/items"]) =
         call_original original c (replace_callback c arguments) w1) /\
    cl_startTime c = 100 /\
    (exists e : EndCall,
       sp_ends (spans w1 (cl_span c)) = [e] /\ reported_end e = cl_startTime c) /\
    cells w1 (cl_spanHasEnded c) = true.
Proof.
  split; [reflexivity|]. split; [reflexivity|].
  destruct (span_end_policy_by_layer_type "bound dispatch" (Some "/:id") 0
              (sample_world true [Some "/items"]) eq_refl eq_refl)
    as (c & w1 & Hrun & Htime & Hother & _).
  assert (attr_get (md_attributes (getLayerMetadata "bound dispatch" (Some "/:id")))
            EXPRESS_TYPE <> Some MIDDLEWARE) as Htype
    by (vm_compute; discriminate).
  destruct (Hother Htype) as [(e & Hends & _ & Hreported) Hcell].
  exists c, w1. split; [exact Hrun|]. split; [exact Htime|].
  split; [by exists e | exact Hcell].
Defined.

Lemma request_handler_renames_root_witness :
  isLayerIgnored "request handler" (Some "request_handler") [] = false /\
  current_span (sample_world true [Some "/items"]) = Some 0 /\
  exists (c : Closure) (w1 : World) (others : list Call),
    (forall (original : Handler) (arguments : list Arg),
       patched_handle "bound dispatch" (Some "/:id") original arguments
         (sample_world true [Some "/items"]) =
         call_original original c (replace_callback c arguments) w1) /\
    layers_store w1 = [Some "/items"; Some "/:id"] /\
    calls w1 = CallUpdateName 0 "GET /items/:id" :: others /\
    sp_name (spans w1 0) = "GET /items/:id".
Proof.
  split; [reflexivity|]. split; [reflexivity|].
  destruct (request_handler_renames_root "bound dispatch" (Some "/:id") 0
              (sample_world true [Some "/items"]) eq_refl eq_refl)
    as (c & w1 & others & Hrun & _ & Hstore & Hrenamed & _).
  destruct (Hrenamed eq_refl) as (Hcalls & Hname & Hexample).
  assert (0 <> next_span (sample_world true [Some "/items"])) as Hparent
    by discriminate.
  specialize (Hname Hparent). specialize (Hexample Hstore).
  rewrite Hexample in Hcalls, Hname.
  exists c, w1, others. split; [exact Hrun|]. split; [exact Hstore|].
  split; [exact Hcalls | exact Hname].
Defined.

(** The request of C9: under the fragments ["/items"] and ["/:id"] the span
    of a GET request is named ["GET /items/:id"] once the request handler has
    been entered. *)
Lemma request_handler_names_root_span :
  let w' :=
    snd (patched_handle "bound dispatch" (Some "/:id") responds
           request_arguments (sample_world true [Some "/items"])) in
  sp_name (spans w' 0) = "GET /items/:id" /\
  head (calls w') = Some (CallUpdateName 0 "GET /items/:id").
Proof. vm_compute. done. Qed.

Lemma open_span_end_times_witness :
  request_arguments !! 2 = Some (AFunction done) /\
  cells open_world 0 = false /\
  clock open_world = 107 /\
  (exists e : EndCall,
     sp_ends (spans (snd (onResponseFinish first_closure open_world)) 1) = [e] /\
     reported_end e = 100) /\
  (exists (w' : World) (e : EndCall),
     patched_callback first_closure request_arguments 2 [] open_world =
       done [] w' /\
     sp_ends (spans w' 1) = [e] /\
     reported_end e = 107).
Proof.
  split; [reflexivity|]. split; [reflexivity|]. split; [reflexivity|].
  destruct (open_span_end_times first_closure request_arguments 2 done []
              open_world eq_refl eq_refl)
    as [(e & Hends & _ & _ & Hreported) (w' & e' & Hrun & Hends' & _ & _ & Hreported')].
  split.
  - exists e. split; [exact Hends | exact Hreported].
  - exists w', e'. split; [exact Hrun|]. split; [exact Hends' | exact Hreported'].
Defined.

(** A middleware that answers the request without calling its continuation:
    its span is ended once, when the response emits ['finish'], and the
    listener is gone; a second ['finish'] changes nothing. *)
Lemma finish_ends_open_span :
  let finished := snd (emit_finish open_world) in
  sp_ends (spans open_world 1) = [] /\
  req_res open_world = Some [first_closure] /\
  sp_ends (spans finished 1) = [{| end_arg := Some 100; end_at := 107 |}] /\
  req_res finished = Some [] /\
  sp_ends (spans (snd (emit_finish finished)) 1) = sp_ends (spans finished 1).
Proof. vm_compute. done. Qed.

(** * The other functions on concrete inputs *)

Lemma layer_span_name_and_attributes_witness :
  let metadata := getLayerMetadata "auth" (Some "/x") in
  let started :=
    start_layer_span metadata (layer_attributes "/x") (sample_world true []) in
  md_attributes metadata !! HTTP_ROUTE = None /\
  attr_get (sp_attributes (spans (snd started) (cl_span (fst started))))
    HTTP_ROUTE = Some "/x".
Proof.
  split; [reflexivity|].
  exact (proj1 (proj2 (proj2 (layer_span_name_and_attributes
                                (getLayerMetadata "auth" (Some "/x")) "/x"
                                (sample_world true [])))) eq_refl).
Defined.

Lemma handler_result_and_finish_listener_witness :
  isLayerIgnored "middleware - auth" (Some "middleware") [] = false /\
  current_span (sample_world true []) = Some 0 /\
  exists w1 : World,
    forall arguments : list Arg,
      patched_handle "auth" (Some "/x") fails arguments (sample_world true []) =
        (Throw (VError "failed"), w1).
Proof.
  split; [reflexivity|]. split; [reflexivity|].
  destruct (handler_result_and_finish_listener "auth" (Some "/x") 0
              (sample_world true []) eq_refl eq_refl) as (c & w1 & Hresult).
  exists w1. intros arguments. exact (Hresult fails arguments).
Defined.

Lemma continuation_removes_its_finish_listener_witness :
  request_arguments !! 2 = Some (AFunction done) /\
  req_res open_world = Some ([] ++ [first_closure]) /\
  exists w' : World,
    patched_callback first_closure request_arguments 2 [] open_world =
      done [] w' /\
    req_res w' = Some [].
Proof.
  split; [reflexivity|]. split; [reflexivity|].
  exact (continuation_removes_its_finish_listener first_closure
           request_arguments 2 done [] [] open_world eq_refl eq_refl).
Defined.

Lemma first_end_attempt_wins_witness :
  (forall callback, chained_arguments !! 2 = Some (AFunction callback) ->
     forall arguments,
       leaves_alone first_closure (fun w => snd (callback arguments w))) /\
  Forall (event_leaves_alone first_closure) sample_events /\
  allocated first_closure open_world /\
  cells open_world 0 = false /\
  sp_ends (spans (happen_all first_closure chained_arguments 2
                    (FinishEmitted :: sample_events) open_world) 1) =
    [{| end_arg := Some 100; end_at := 107 |}] /\
  sp_ends (spans (happen_all first_closure chained_arguments 2
                    (ContinuationCalled [] :: sample_events) open_world) 1) =
    [{| end_arg := None; end_at := 107 |}].
Proof.
  assert (forall callback, chained_arguments !! 2 = Some (AFunction callback) ->
            forall arguments,
              leaves_alone first_closure (fun w => snd (callback arguments w)))
    as Hcallback.
  { intros callback [= <-]. apply next_layer_leaves_alone. }
  pose proof (sample_events_leave_alone first_closure) as Hevents.
  assert (allocated first_closure open_world) as Halloc
    by (split; vm_compute; lia).
  split; [exact Hcallback|]. split; [exact Hevents|]. split; [exact Halloc|].
  split; [reflexivity|].
  destruct (first_end_attempt_wins first_closure chained_arguments 2
              sample_events open_world Hcallback Hevents Halloc eq_refl)
    as [Hfinish Hcontinuation].
  split; [exact Hfinish | exact (Hcontinuation [])].
Defined.

Lemma immediate_end_is_final_witness :
  let metadata := getLayerMetadata "bound dispatch" (Some "/:id") in
  let started :=
    start_layer_span metadata (layer_attributes "/items/:id")
      (sample_world true [Some "/items"; Some "/:id"]) in
  attr_get (md_attributes metadata) EXPRESS_TYPE <> Some MIDDLEWARE /\
  Forall (event_leaves_alone first_closure) sample_events /\
  sp_ends (spans (happen_all first_closure chained_arguments 2 sample_events
                    (snd started)) 1) =
    [{| end_arg := Some 100; end_at := 100 |}].
Proof.
  assert (attr_get (md_attributes (getLayerMetadata "bound dispatch" (Some "/:id")))
            EXPRESS_TYPE <> Some MIDDLEWARE) as Htype
    by (vm_compute; discriminate).
  assert (forall callback, chained_arguments !! 2 = Some (AFunction callback) ->
            forall arguments,
              leaves_alone first_closure (fun w => snd (callback arguments w)))
    as Hcallback.
  { intros callback [= <-]. apply next_layer_leaves_alone. }
  pose proof (sample_events_leave_alone first_closure) as Hevents.
  split; [exact Htype|]. split; [exact Hevents|].
  exact (immediate_end_is_final (getLayerMetadata "bound dispatch" (Some "/:id"))
           (layer_attributes "/items/:id") chained_arguments 2 sample_events
           (sample_world true [Some "/items"; Some "/:id"])
           Htype Hcallback Hevents).
Defined.

Lemma middleware_passing_on_ends_span_once_witness :
  isLayerIgnored "middleware - auth" (Some "middleware") [] = false /\
  current_span (sample_world true [Some "/items"]) = Some 0 /\
  findIndex is_function chained_arguments = Some 2 /\
  leaves_alone first_closure (fun w => snd (next_layer [] w)) /\
  let final :=
    snd (patched_handle "auth" None (passes_on []) chained_arguments
           (sample_world true [Some "/items"])) in
  next_span final = 3 /\
  sp_ends (spans final 1) = [{| end_arg := None; end_at := 100 |}] /\
  cells final 0 = true.
Proof.
  pose proof (next_layer_leaves_alone first_closure []) as Hnext.
  split; [reflexivity|]. split; [reflexivity|]. split; [reflexivity|].
  split; [exact Hnext|].
  destruct (middleware_passing_on_ends_span_once "auth" None 0
              chained_arguments 2 next_layer []
              (sample_world true [Some "/items"])
              eq_refl eq_refl eq_refl eq_refl eq_refl Hnext)
    as (Hends & Hflag & _).
  split; [vm_compute; reflexivity|]. split; [exact Hends | exact Hflag].
Defined.

Lemma registration_patches_last_layer_witness :
  push_layer auth_layer [PString "/api"] [error_layer] =
    (Return VUndefined, [error_layer] ++ [auth_layer]) /\
  _getRouterUsePatch (push_layer auth_layer) [PString "/api"] [error_layer] =
    (Return VUndefined,
     [error_layer] ++ [_applyPatch auth_layer (Some "/api")]).
Proof.
  split; [reflexivity|].
  exact (proj2 (proj1 (registration_patches_last_layer [PString "/api"]
                         VUndefined [error_layer] auth_layer)
                  (push_layer auth_layer) [error_layer] eq_refl)).
Defined.

Lemma registration_failures_witness :
  refuses [PHandler] [auth_layer] = (Throw (VError "refused"), [auth_layer]) /\
  _getRoutePatch refuses [PHandler] [auth_layer] =
    (Throw (VError "refused"), [auth_layer]).
Proof.
  split; [reflexivity|].
  exact (proj1 (proj1 (registration_failures [PHandler]) refuses [auth_layer]
                  [auth_layer] (VError "refused") eq_refl)).
Defined.

Lemma registrations_never_wrap_twice_witness :
  Forall wrapped_at_most_once ([] : list ExpressLayer) /\
  Forall wrapped_at_most_once (register_all sample_registrations []) /\
  length (register_all sample_registrations []) = 2.
Proof.
  assert (forall layer : ExpressLayer,
            wrapped_at_most_once layer ->
            forall args stack, Forall wrapped_at_most_once stack ->
              Forall wrapped_at_most_once (snd (push_layer layer args stack)))
    as Hpush.
  { intros layer Hlayer args stack Hstack. simpl.
    apply Forall_app. split; [exact Hstack | by constructor]. }
  assert (wrapped_at_most_once auth_layer) as Hauth by (vm_compute; lia).
  assert (wrapped_at_most_once error_layer) as Herror by (vm_compute; lia).
  split; [constructor|]. split; [|reflexivity].
  apply registrations_never_wrap_twice; [|constructor].
  repeat constructor.
  - exists (push_layer auth_layer). split; [by right | by apply Hpush].
  - exists (push_layer error_layer). split; [by left | by apply Hpush].
Defined.

Lemma unpatch_after_patch_witness :
  isWrapped (Router_route plain_exports) = false /\
  unpatch (patch (MExports plain_exports)) = Some (MExports plain_exports).
Proof.
  split; [reflexivity|].
  exact (proj2 (unpatch_after_patch (MExports plain_exports)) plain_exports
           eq_refl eq_refl eq_refl eq_refl).
Defined.
